(** * Contract selection and moving-average crossover of the trading bot

    A shallow embedding of the two decision procedures of the repository:

    - [AdvancedOptionsStrategy] (src/core_logic/advanced_options_strategy.py):
      the filter pipeline over an options chain, the choice of one contract
      and the sizing of the order;
    - [MovingAverageCrossoverStrategy] (src/core_logic/forex_strategies.py):
      the tick-driven crossover state machine.

    Conventions of the embedding.

    - A Python float is the rational it denotes, of type [Q]; a field of a
      record holds a number as it is written, and the machine number is its
      [double], the nearest binary64 number.  Every arithmetic operation of
      the code is the exact operation on the doubles of its operands,
      rounded again by [double]; comparisons are taken on the values.
      Overflow, infinities and NaN coming from the data are not
      represented.  The one NaN the code tests for itself, the one pandas'
      rolling mean yields on a window that is not full, is kept ([MaNaN]).
    - What the code obtains from library functions whose result depends on
      the library's version ([sum] on floats, pandas' rolling mean, the
      order [sort_values] gives to equal keys) is a parameter of the model,
      [Libraries]; [reference] is one implementation, used to run the model.
    - A dict that the code reads with [.get] has an optional field for
      each such key; keys read with [d['k']] on every path are plain fields.
    - An exception is the [inl] of a sum; [try/except] is a match on it.
    - The wall clock is an input: one reading per contract of the chain. *)

From Stdlib Require Import ZArith QArith Qabs Qround List String Bool Lia Lqa
  Permutation Sorted.
From ExtLib Require Import Structures.Monad Structures.MonadExc
  Data.Monads.EitherMonad.
Import ListNotations.
Import MonadNotation.
Local Open Scope monad_scope.
Local Open Scope Q_scope.

(** ** Python values and exceptions *)

Inductive pyexn : Set :=
| IndexError
| KeyError
| ValueError
| TypeError
| ZeroDivisionError.

(** What an expression evaluates to: a value, or the exception it raises. *)
Abbreviation py := (sum pyexn) (only parsing).

(** The value found under a key whose content the code does not trust
    (delta, implied_volatility, iv_percentile), classified by the three
    operations the code applies to it: [is None], [float(...)] and
    [format(..., '.2f')]. *)
Inductive pyval : Set :=
| PyNone                      (* None *)
| PyNumber (q : Q)            (* an int or a float *)
| PyNumericStr (q : Q)        (* a str that float() converts, to q *)
| PyNonNumericStr.            (* a str that float() rejects, such as 'abc' *)

(** [float(v)] *)
Definition float (v : pyval) : py Q :=
  match v with
  | PyNone => raise TypeError
  | PyNumber q => ret q
  | PyNumericStr q => ret q
  | PyNonNumericStr => raise ValueError
  end.

(** [f"{v:.2f}"]: only numbers know the format code [f]. *)
Definition format_2f (v : pyval) : py unit :=
  match v with
  | PyNone => raise TypeError
  | PyNumber _ => ret tt
  | PyNumericStr _ => raise ValueError
  | PyNonNumericStr => raise ValueError
  end.

(** [d.get(k)] and [d.get(k, default)] on an optional field. *)
Definition get (field : option pyval) : pyval :=
  match field with Some v => v | None => PyNone end.

Definition is_None {A : Type} (field : option A) : bool :=
  match field with Some _ => false | None => true end.

Definition get_default {A : Type} (field : option A) (default : A) : A :=
  match field with Some v => v | None => default end.

(** Comparisons of Python numbers. *)
Definition Qlt_bool (x y : Q) : bool := negb (Qle_bool y x).

(** [lo <= x <= hi] *)
Definition between (lo x hi : Q) : bool := Qle_bool lo x && Qle_bool x hi.

Lemma Qlt_bool_iff (x y : Q) : Qlt_bool x y = true <-> x < y.
Proof.
  unfold Qlt_bool. rewrite negb_true_iff, <- not_true_iff_false, Qle_bool_iff.
  split; [apply Qnot_le_lt | apply Qlt_not_le].
Qed.

Lemma between_iff (lo x hi : Q) : between lo x hi = true <-> lo <= x /\ x <= hi.
Proof. unfold between. now rewrite andb_true_iff, !Qle_bool_iff. Qed.

Lemma Qle_bool_false_iff (x y : Q) : Qle_bool x y = false <-> y < x.
Proof.
  rewrite <- Qlt_bool_iff. unfold Qlt_bool. now rewrite negb_true_iff.
Qed.

Lemma Qlt_bool_false_iff (x y : Q) : Qlt_bool x y = false <-> y <= x.
Proof.
  unfold Qlt_bool. now rewrite negb_false_iff, Qle_bool_iff.
Qed.

(** ** Floating point *)

(** [n / d] rounded to an integer, halves to the even one; [0 <= n] and
    [0 < d]. *)
Definition round_half_even (n d : Z) : Z :=
  let q := (n / d)%Z in
  let r := (n mod d)%Z in
  match (2 * r ?= d)%Z with
  | Lt => q
  | Gt => (q + 1)%Z
  | Eq => if Z.even q then q else (q + 1)%Z
  end.

(** The exponent [l] with [2^l <= n / d < 2^(l+1)], for [0 < n] and
    [0 < d]. *)
Definition exponent (n d : Z) : Z :=
  let l := (Z.log2 n - Z.log2 d)%Z in
  if (l <? 0)%Z
  then (if (n * 2 ^ (- l) <? d)%Z then l - 1 else l)%Z
  else (if (n <? d * 2 ^ l)%Z then l - 1 else l)%Z.

(** The binary64 number nearest to [x], ties to the even significand: what
    Python stores for the literal [x], and what an arithmetic operation
    returns for the exact result [x].  With [2^l <= |x| < 2^(l+1)] the
    significand has 53 bits and the unit is [2^(l-52)].  The range of the
    exponent is not bounded: magnitudes above 1.8e308 or below 2.3e-308,
    where a float overflows or loses bits, are not represented. *)
Definition double (x : Q) : Q :=
  let n := Z.abs (Qnum x) in
  let d := Zpos (Qden x) in
  if (n =? 0)%Z then 0
  else
    let e := (exponent n d - 52)%Z in
    let m := if (e <? 0)%Z then round_half_even (n * 2 ^ (- e)) d
             else round_half_even n (d * 2 ^ e) in
    let m := if (Qnum x <? 0)%Z then (- m)%Z else m in
    Qred (if (e <? 0)%Z then Qmake m (Z.to_pos (2 ^ (- e)))
          else inject_Z (m * 2 ^ e)).

(** [x + y], [x - y], [x * y] and [x / y] on floats. *)
Definition fadd (x y : Q) : Q := double (double x + double y).
Definition fsub (x y : Q) : Q := double (double x - double y).
Definition fmul (x y : Q) : Q := double (double x * double y).
Definition fdiv (x y : Q) : Q := double (double x / double y).

Lemma round_half_even_pos (n d : Z) :
  (0 < d <= n)%Z -> (1 <= round_half_even n d)%Z.
Proof.
  intros H. unfold round_half_even. cbv zeta.
  assert (1 <= n / d)%Z as Hq by (apply Z.div_le_lower_bound; lia).
  destruct (2 * (n mod d) ?= d)%Z; [destruct (Z.even _)| |]; lia.
Qed.

Lemma exponent_spec (n d : Z) :
  (0 < n)%Z -> (0 < d)%Z ->
  let l := exponent n d in
  ((l < 0 -> d <= n * 2 ^ (- l)) /\ (0 <= l -> d * 2 ^ l <= n))%Z.
Proof.
  intros Hn Hd. cbv zeta. unfold exponent.
  pose proof (Z.log2_spec n Hn) as [Hn1 Hn2].
  pose proof (Z.log2_spec d Hd) as [Hd1 Hd2].
  pose proof (Z.log2_nonneg n) as Ha. pose proof (Z.log2_nonneg d) as Hb.
  set (a := Z.log2 n) in *. set (b := Z.log2 d) in *.
  rewrite Z.pow_succ_r in Hn2, Hd2 by assumption.
  destruct (Z.ltb_spec (a - b) 0) as [Hneg|Hpos].
  - assert (2 ^ b = 2 ^ a * 2 ^ (- (a - b)))%Z as Hsplit.
    { rewrite <- Z.pow_add_r by lia. f_equal. lia. }
    destruct (Z.ltb_spec (n * 2 ^ (- (a - b))) d) as [Hlt|Hge].
    + split; [intros _|lia].
      replace (- (a - b - 1))%Z with (Z.succ (- (a - b))) by lia.
      rewrite Z.pow_succ_r by lia.
      assert (0 < 2 ^ (- (a - b)))%Z by (apply Z.pow_pos_nonneg; lia).
      nia.
    + split; [intros _; exact Hge|lia].
  - assert (2 ^ a = 2 ^ b * 2 ^ (a - b))%Z as Hsplit.
    { rewrite <- Z.pow_add_r by lia. f_equal. lia. }
    assert (0 < 2 ^ (a - b))%Z as Hp by (apply Z.pow_pos_nonneg; lia).
    destruct (Z.ltb_spec n (d * 2 ^ (a - b))) as [Hlt|Hge].
    + split.
      * intros Hl. assert (a - b = 0)%Z as H0 by lia.
        replace (- (a - b - 1))%Z with 1%Z by lia.
        rewrite H0 in *. change (2 ^ 0)%Z with 1%Z in *.
        change (2 ^ 1)%Z with 2%Z. lia.
      * intros Hl.
        assert (2 ^ (a - b) = 2 * 2 ^ (a - b - 1))%Z as Hhalf.
        { rewrite <- Z.pow_succ_r by lia. f_equal. lia. }
        assert (0 < 2 ^ (a - b - 1))%Z by (apply Z.pow_pos_nonneg; lia).
        nia.
    + split; [lia|intros _; exact Hge].
Qed.

(** Rounding keeps a positive number positive. *)
Lemma double_pos (x : Q) : 0 < x -> 0 < double x.
Proof.
  intros Hx. unfold double. cbv zeta.
  assert (0 < Qnum x)%Z as Hnum.
  { unfold Qlt in Hx. cbn in Hx. lia. }
  rewrite Z.abs_eq by lia.
  destruct (Z.eqb_spec (Qnum x) 0) as [H0|_]; [lia|].
  destruct (Z.ltb_spec (Qnum x) 0) as [Hneg|_]; [lia|].
  rewrite Qred_correct.
  pose proof (exponent_spec (Qnum x) (Zpos (Qden x)) Hnum (Pos2Z.is_pos _))
    as Hl.
  cbv zeta in Hl. set (l := exponent (Qnum x) (Zpos (Qden x))) in *.
  destruct Hl as [Hl1 Hl2].
  destruct (Z.ltb_spec (l - 52) 0) as [He|He].
  - assert (1 <= round_half_even (Qnum x * 2 ^ (- (l - 52))) (Zpos (Qden x)))%Z
      as Hm.
    { apply round_half_even_pos. split; [apply Pos2Z.is_pos|].
      destruct (Z_lt_le_dec l 0) as [Hlneg|Hlpos].
      - specialize (Hl1 Hlneg).
        replace (- (l - 52))%Z with (- l + 52)%Z by lia.
        rewrite Z.pow_add_r by lia.
        assert (1 <= 2 ^ 52)%Z by (apply (Z.pow_le_mono_r 2 0 52); lia).
        assert (0 < 2 ^ (- l))%Z by (apply Z.pow_pos_nonneg; lia).
        nia.
      - specialize (Hl2 Hlpos).
        assert (1 <= 2 ^ l)%Z by (apply (Z.pow_le_mono_r 2 0 l); lia).
        assert (1 <= 2 ^ (- (l - 52)))%Z
          by (apply (Z.pow_le_mono_r 2 0 (- (l - 52))); lia).
        pose proof (Pos2Z.is_pos (Qden x)). nia. }
    unfold Qlt. cbn [Qnum Qden]. lia.
  - assert (1 <= round_half_even (Qnum x) (Zpos (Qden x) * 2 ^ (l - 52)))%Z
      as Hm.
    { apply round_half_even_pos.
      assert (0 < 2 ^ (l - 52))%Z by (apply Z.pow_pos_nonneg; lia).
      pose proof (Pos2Z.is_pos (Qden x)).
      split; [nia|].
      specialize (Hl2 ltac:(lia)).
      replace l with ((l - 52) + 52)%Z in Hl2 by lia.
      rewrite Z.pow_add_r in Hl2 by lia.
      assert (1 <= 2 ^ 52)%Z by (apply (Z.pow_le_mono_r 2 0 52); lia).
      nia. }
    assert (0 < 2 ^ (l - 52))%Z by (apply Z.pow_pos_nonneg; lia).
    unfold Qlt, inject_Z. cbn [Qnum Qden]. nia.
Qed.

Lemma fmul_pos (x y : Q) : 0 < x -> 0 < y -> 0 < fmul x y.
Proof.
  intros Hx Hy. unfold fmul. apply double_pos.
  apply double_pos in Hx, Hy. nra.
Qed.

(** Rounding is evaluated by [vm_compute] only. *)
Opaque double.

Module AdvancedOptionsStrategy.

(** *** Configuration *)

Record StrategyConfig : Type := {
  ticker : string;
  target_dte_min : Q;
  target_dte_max : Q;
  target_delta_min : Q;
  target_delta_max : Q;
  iv_filter_mode : string;
  target_iv_min : Q;
  target_iv_max : Q;
  target_iv_percentile_min : Q;
  target_iv_percentile_max : Q;
  iv_to_hv_ratio_min : Q;
  iv_to_hv_ratio_max : Q;
  min_open_interest : Q;
  min_volume : Q;
  max_bid_ask_spread_pct : Q;
  risk_per_trade_pct : Q
}.

Definition strategy_name : string := "AdvancedOptionsStrategy".

Definition default_config : StrategyConfig := {|
  ticker := "SPY";
  target_dte_min := 30;
  target_dte_max := 60;
  target_delta_min := 30 # 100;
  target_delta_max := 50 # 100;
  iv_filter_mode := "fixed_range";
  target_iv_min := 15 # 100;
  target_iv_max := 60 # 100;
  target_iv_percentile_min := 20;
  target_iv_percentile_max := 80;
  iv_to_hv_ratio_min := 1;
  iv_to_hv_ratio_max := 25 # 10;
  min_open_interest := 100;
  min_volume := 50;
  max_bid_ask_spread_pct := 1 # 10;
  risk_per_trade_pct := 1 # 100
|}.

Definition iv_filter_modes : list string :=
  ["fixed_range"; "percentile"; "vs_underlying_hv"; "none"]%string.

Definition _validate_config (self : StrategyConfig) : py unit :=
  let mode := iv_filter_mode self in
  if existsb (String.eqb mode) iv_filter_modes then ret tt
  else raise ValueError.

(** *** Contracts *)

(** One record of the options chain.  [expiration_date] is the datetime
    that [strptime(..., '%Y-%m-%d')] yields, in microseconds since the
    epoch; [dte] is the key the pass writes into the records it keeps. *)
Record OptionContract : Type := {
  symbol : string;
  type : string;
  expiration_date : Z;
  delta : option pyval;
  implied_volatility : option pyval;
  iv_percentile : option pyval;
  open_interest : option Q;
  volume : option Q;
  bid : option Q;
  ask : option Q;
  dte : option Z
}.

Definition microseconds_per_day : Z := 86400000000.

(** [(expiration_date - datetime.now()).days]: a timedelta is normalised
    with non-negative seconds and microseconds, so [.days] is the floor. *)
Definition _calculate_dte (now : Z) (expiration_date : Z) : Z :=
  ((expiration_date - now) / microseconds_per_day)%Z.

Definition _passes_iv_filter (self : StrategyConfig) (contract : OptionContract)
    (underlying_hv : option Q) : py bool :=
  let mode := iv_filter_mode self in
  match get (implied_volatility contract) with
  | PyNone => ret true
  | iv =>
    match float iv with
    | inl ValueError | inl TypeError => ret false
    | inl e => raise e
    | inr iv =>
      if (mode =? "none")%string then ret true
      else if (mode =? "fixed_range")%string then
        ret (between (target_iv_min self) iv (target_iv_max self))
      else if (mode =? "percentile")%string then
        match get (iv_percentile contract) with
        | PyNone => ret false
        | percentile =>
          match float percentile with
          | inl ValueError | inl TypeError => ret false
          | inl e => raise e
          | inr percentile =>
            ret (between (target_iv_percentile_min self) percentile
                         (target_iv_percentile_max self))
          end
        end
      else if (mode =? "vs_underlying_hv")%string then
        match underlying_hv with
        | None => ret false
        | Some underlying_hv =>
          if Qle_bool underlying_hv 0 then ret false
          else
            let ratio := fdiv iv underlying_hv in
            ret (between (double (iv_to_hv_ratio_min self)) ratio
                         (double (iv_to_hv_ratio_max self)))
        end
      else ret true
    end
  end.

(** *** The filter pipeline of [define_orders] *)

Definition set_dte (c : OptionContract) (d : Z) : OptionContract := {|
  symbol := symbol c;
  type := type c;
  expiration_date := expiration_date c;
  delta := delta c;
  implied_volatility := implied_volatility c;
  iv_percentile := iv_percentile c;
  open_interest := open_interest c;
  volume := volume c;
  bid := bid c;
  ask := ask c;
  dte := Some d
|}.

(** The body of the [for contract in options_chain] loop, run at the clock
    reading [now]: [None] is [continue], [Some c] the record appended to
    [eligible_contracts] (the contract, with its [dte] key written). *)
Definition examine (self : StrategyConfig) (underlying_hv : option Q)
    (desired_option_type : string) (now : Z) (contract : OptionContract)
    : py (option OptionContract) :=
  if negb (type contract =? desired_option_type)%string then ret None
  else
    let dte := _calculate_dte now (expiration_date contract) in
    if negb (between (target_dte_min self) (inject_Z dte) (target_dte_max self))
    then ret None
    else
      match float (get_default (delta contract) (PyNumber 0)) with
      | inl ValueError | inl TypeError => ret None
      | inl e => raise e
      | inr delta_val =>
        let abs_delta := Qabs delta_val in
        if negb (between (target_delta_min self) abs_delta
                         (target_delta_max self))
        then ret None
        else
          passes <- _passes_iv_filter self contract underlying_hv ;;
          if negb passes then ret None
          else if Qlt_bool (get_default (open_interest contract) 0)
                           (min_open_interest self) then ret None
          else if Qlt_bool (get_default (volume contract) 0)
                           (min_volume self) then ret None
          else
            let bid := get_default (bid contract) 0 in
            let ask := get_default (ask contract) 0 in
            if Qle_bool ask 0 || Qle_bool bid 0 then ret None
            else if Qlt_bool (double (max_bid_ask_spread_pct self))
                             (fdiv (fsub ask bid) ask)
            then ret None
            else ret (Some (set_dte contract dte))
      end.

(** The loop itself; the contract at position [i] of the chain is examined
    at the instant [clock i]. *)
Fixpoint eligible_from (self : StrategyConfig) (underlying_hv : option Q)
    (desired_option_type : string) (clock : nat -> Z) (i : nat)
    (options_chain : list OptionContract) : py (list OptionContract) :=
  match options_chain with
  | [] => ret []
  | contract :: rest =>
    kept <- examine self underlying_hv desired_option_type (clock i) contract ;;
    eligible <- eligible_from self underlying_hv desired_option_type clock
                  (S i) rest ;;
    ret match kept with
        | Some c => c :: eligible
        | None => eligible
        end
  end.

Definition eligible_contracts (self : StrategyConfig) (underlying_hv : option Q)
    (desired_option_type : string) (clock : nat -> Z)
    (options_chain : list OptionContract) : py (list OptionContract) :=
  eligible_from self underlying_hv desired_option_type clock 0 options_chain.

(** *** Selection: [eligible_contracts.sort(key=...)] and [[0]] *)

(** The sort key, a pair compared as Python compares tuples. *)
Definition sort_key (self : StrategyConfig) (x : OptionContract) : py (Q * Q) :=
  d <- float (get_default (delta x) (PyNumber 0)) ;;
  ret (Qabs (fsub (Qabs d)
                  (fdiv (fadd (target_delta_min self) (target_delta_max self))
                        2)),
       - get_default (open_interest x) 0).

Definition key_lt (k1 k2 : Q * Q) : bool :=
  if Qeq_bool (fst k1) (fst k2) then Qlt_bool (snd k1) (snd k2)
  else Qlt_bool (fst k1) (fst k2).

(** [list.sort] computes every key first, then sorts stably on the keys
    with [<] alone.  A stable insertion sort: the new element goes before
    the first one that is not smaller. *)
Fixpoint decorate (self : StrategyConfig) (l : list OptionContract)
    : py (list ((Q * Q) * OptionContract)) :=
  match l with
  | [] => ret []
  | x :: rest =>
    k <- sort_key self x ;;
    tail <- decorate self rest ;;
    ret ((k, x) :: tail)
  end.

Fixpoint insert (kx : (Q * Q) * OptionContract) (sorted : list ((Q * Q) * OptionContract))
    : list ((Q * Q) * OptionContract) :=
  match sorted with
  | [] => [kx]
  | ky :: rest =>
    if key_lt (fst ky) (fst kx) then ky :: insert kx rest
    else kx :: ky :: rest
  end.

Fixpoint sort_decorated (l : list ((Q * Q) * OptionContract))
    : list ((Q * Q) * OptionContract) :=
  match l with
  | [] => []
  | kx :: rest => insert kx (sort_decorated rest)
  end.

Definition sort (self : StrategyConfig) (l : list OptionContract) : py (list OptionContract) :=
  decorated <- decorate self l ;;
  ret (map snd (sort_decorated decorated)).

(** *** Orders *)

Record Order : Type := {
  order_symbol : string;
  order_type : string;
  side : string;
  quantity : Z;
  price_at_decision : Q;
  estimated_cost : Q;
  tag : string
}.

(** A row of the signals frame, and the keyword arguments. *)
Record signal_row : Type := {
  signal : Q;
  positions : Q
}.

Record kwargs : Type := {
  options_chain : option (list OptionContract);
  underlying_price : option Q;
  underlying_hv : option Q
}.

(** [signals.iloc[-1]] *)
Definition iloc_last (signals : list signal_row) : py signal_row :=
  match rev signals with
  | [] => raise IndexError
  | row :: _ => ret row
  end.

(** [d[k]] on an optional field. *)
Definition getitem {A : Type} (field : option A) : py A :=
  match field with
  | Some v => ret v
  | None => raise KeyError
  end.

(** [not options_chain] *)
Definition falsy (chain : option (list OptionContract)) : bool :=
  match chain with
  | None | Some [] => true
  | Some (_ :: _) => false
  end.

(** [int(x // y)] on two floats, here always two products.  CPython
    computes [x // y] from the exact remainder [fmod(x, y)]: the result is
    the floor of the exact quotient of the two floats whenever that floor
    is below 2^53. *)
Definition int_floordiv (x y : Q) : py Z :=
  if Qeq_bool y 0 then raise ZeroDivisionError
  else ret (Qfloor (x / y)).

(** The final [print]: its f-string formats the implied volatility and the
    delta of the selected contract with [:.2f]. *)
Definition print_selection (selected_contract : OptionContract) : py unit :=
  let iv_display :=
    get_default (implied_volatility selected_contract) PyNonNumericStr in
  format_2f iv_display ;;
  format_2f (get_default (delta selected_contract) PyNonNumericStr).

Definition define_orders (self : StrategyConfig) (signals : list signal_row)
    (account_balance : Q) (kw : kwargs) (clock : nat -> Z) : py (list Order) :=
  let orders := [] in
  latest_signal_info <- iloc_last signals ;;
  let trade_signal := positions latest_signal_info in
  if falsy (options_chain kw) || is_None (underlying_price kw)
  then ret orders
  else if Qeq_bool trade_signal 0 then ret orders
  else
    let desired_option_type :=
      (if Qlt_bool 0 trade_signal then "call" else "put")%string in
    eligible <-
      eligible_contracts self (underlying_hv kw) desired_option_type clock
        (get_default (options_chain kw) []) ;;
    match eligible with
    | [] => ret orders
    | _ :: _ =>
      sorted <- sort self eligible ;;
      match sorted with
      | [] => raise IndexError
      | selected_contract :: _ =>
        option_price_to_use <- getitem (ask selected_contract) ;;
        if Qle_bool option_price_to_use 0 then ret orders
        else
          let max_loss_per_contract := fmul option_price_to_use 100 in
          let trade_risk_amount :=
            fmul account_balance (risk_per_trade_pct self) in
          quantity <- int_floordiv trade_risk_amount max_loss_per_contract ;;
          if (quantity =? 0)%Z then ret orders
          else
            let order := {|
              order_symbol := symbol selected_contract;
              order_type := "market";
              side := "buy_to_open";
              quantity := quantity;
              price_at_decision := option_price_to_use;
              estimated_cost :=
                fmul (fmul option_price_to_use (inject_Z quantity)) 100;
              tag := strategy_name ++ "_" ++ desired_option_type
            |} in
            print_selection selected_contract ;;
            ret (orders ++ [order])
      end
    end.

(** ** The filter pipeline, stage by stage *)

Section Pipeline.

Variable self : StrategyConfig.
Variable hv : option Q.
Variable desired_option_type : string.

(** The six tests of the loop body, each as the condition under which the
    body does not [continue]. *)
Definition stage_type (now : Z) (c : OptionContract) : bool :=
  (type c =? desired_option_type)%string.

Definition stage_dte (now : Z) (c : OptionContract) : bool :=
  between (target_dte_min self)
          (inject_Z (_calculate_dte now (expiration_date c)))
          (target_dte_max self).

Definition stage_delta (now : Z) (c : OptionContract) : bool :=
  match float (get_default (delta c) (PyNumber 0)) with
  | inr delta_val =>
    between (target_delta_min self) (Qabs delta_val) (target_delta_max self)
  | inl _ => false
  end.

Definition stage_iv (now : Z) (c : OptionContract) : bool :=
  match _passes_iv_filter self c hv with
  | inr passes => passes
  | inl _ => false
  end.

Definition stage_liquidity (now : Z) (c : OptionContract) : bool :=
  negb (Qlt_bool (get_default (open_interest c) 0) (min_open_interest self))
  && negb (Qlt_bool (get_default (volume c) 0) (min_volume self)).

Definition stage_spread (now : Z) (c : OptionContract) : bool :=
  let bid := get_default (bid c) 0 in
  let ask := get_default (ask c) 0 in
  negb (Qle_bool ask 0 || Qle_bool bid 0)
  && negb (Qlt_bool (double (max_bid_ask_spread_pct self))
                    (fdiv (fsub ask bid) ask)).

Definition stages : list (Z -> OptionContract -> bool) :=
  [stage_type; stage_dte; stage_delta; stage_iv; stage_liquidity;
   stage_spread].

(** The verdict of a list of stages run in the order of the list. *)
Definition run_stages (order : list (Z -> OptionContract -> bool))
    (now : Z) (c : OptionContract) : bool :=
  forallb (fun stage => stage now c) order.

(** The claim's conjunction, in the words of the specification: type, DTE,
    absolute delta, IV filter, liquidity, spread.  The spread is the float
    the two operations of [(ask - bid) / ask] yield. *)
Definition spec_survives (now : Z) (c : OptionContract) : Prop :=
  type c = desired_option_type
  /\ (target_dte_min self <= inject_Z (_calculate_dte now (expiration_date c))
      /\ inject_Z (_calculate_dte now (expiration_date c))
         <= target_dte_max self)
  /\ (exists d, float (get_default (delta c) (PyNumber 0)) = inr d
                /\ target_delta_min self <= Qabs d
                /\ Qabs d <= target_delta_max self)
  /\ _passes_iv_filter self c hv = inr true
  /\ (min_open_interest self <= get_default (open_interest c) 0
      /\ min_volume self <= get_default (volume c) 0)
  /\ (0 < get_default (bid c) 0
      /\ 0 < get_default (ask c) 0
      /\ fdiv (fsub (get_default (ask c) 0) (get_default (bid c) 0))
              (get_default (ask c) 0)
         <= double (max_bid_ask_spread_pct self)).

(** The records the loop keeps, as a plain filter over the chain. *)
Fixpoint survivors (clock : nat -> Z) (i : nat) (chain : list OptionContract)
    : list OptionContract :=
  match chain with
  | [] => []
  | c :: rest =>
    if run_stages stages (clock i) c
    then set_dte c (_calculate_dte (clock i) (expiration_date c))
           :: survivors clock (S i) rest
    else survivors clock (S i) rest
  end.

End Pipeline.

(** [float] raises nothing but the two exceptions the code catches. *)
Lemma float_cases (v : pyval) :
  (exists q, float v = inr q)
  \/ float v = inl ValueError \/ float v = inl TypeError.
Proof. destruct v; cbn; eauto. Qed.

(** The IV filter catches every exception it can meet. *)
Lemma _passes_iv_filter_total self c hv :
  exists b, _passes_iv_filter self c hv = inr b.
Proof.
  unfold _passes_iv_filter.
  destruct (get (implied_volatility c)) as [|iv|iv|]; cbn; eauto;
    repeat match goal with
           | |- context [if ?b then _ else _] => destruct b
           | |- context [match get ?v with _ => _ end] => destruct (get v); cbn
           | |- context [match ?o with Some _ => _ | None => _ end] => destruct o
           end; eauto.
Qed.

Lemma examine_run_stages self hv desired now c :
  examine self hv desired now c
  = inr (if run_stages (stages self hv desired) now c
         then Some (set_dte c (_calculate_dte now (expiration_date c)))
         else None).
Proof.
  unfold examine, run_stages, stages, forallb, stage_type, stage_dte,
    stage_delta, stage_iv, stage_liquidity, stage_spread.
  destruct (type c =? desired)%string; cbn [negb andb]; [|reflexivity].
  destruct (between (target_dte_min self) _ (target_dte_max self));
    cbn [negb andb]; [|reflexivity].
  destruct (float_cases (get_default (delta c) (PyNumber 0)))
    as [[d ->] | [-> | ->]]; [|reflexivity|reflexivity].
  destruct (between (target_delta_min self) _ (target_delta_max self));
    cbn [negb andb]; [|reflexivity].
  destruct (_passes_iv_filter_total self c hv) as [b ->].
  cbn [bind Monad_either]. destruct b; cbn [negb andb]; [|reflexivity].
  destruct (Qlt_bool (get_default (open_interest c) 0) _);
    cbn [negb andb]; [reflexivity|].
  destruct (Qlt_bool (get_default (volume c) 0) _);
    cbn [negb andb]; [reflexivity|].
  destruct (Qle_bool (get_default (ask c) 0) 0 || Qle_bool _ 0);
    cbn [negb andb]; [reflexivity|].
  destruct (Qlt_bool (double (max_bid_ask_spread_pct self)) _); reflexivity.
Qed.

Lemma eligible_from_survivors self hv desired clock chain :
  forall i,
    eligible_from self hv desired clock i chain
    = inr (survivors self hv desired clock i chain).
Proof.
  induction chain as [|c rest IH]; intros i; [reflexivity|].
  cbn [eligible_from survivors].
  rewrite examine_run_stages, IH. cbn [bind Monad_either ret].
  destruct (run_stages _ _ c); reflexivity.
Qed.

Lemma run_stages_spec self hv desired now c :
  run_stages (stages self hv desired) now c = true
  <-> spec_survives self hv desired now c.
Proof.
  unfold run_stages, stages, forallb, spec_survives, stage_type, stage_dte,
    stage_delta, stage_iv, stage_liquidity, stage_spread.
  rewrite !andb_true_iff, !negb_true_iff, orb_false_iff, String.eqb_eq,
    !between_iff, !Qlt_bool_false_iff, !Qle_bool_false_iff.
  destruct (_passes_iv_filter_total self c hv) as [b ->].
  destruct (float (get_default (delta c) (PyNumber 0))) as [e|d].
  - split; [intros (_ & _ & H & _); discriminate H|].
    intros (_ & _ & (d & H & _) & _); discriminate H.
  - rewrite between_iff. split.
    + intros (Ht & Hd & Hdelta & Hiv & (Hoi & Hvol) & ((Hask & Hbid) & Hsp) & _).
      subst b. repeat split; try tauto. exists d. tauto.
    + intros (Ht & Hd & (d' & Hd' & Hdelta) & Hiv & Hliq & Hbid & Hask & Hsp).
      injection Hd' as ->. injection Hiv as ->. tauto.
Qed.

Lemma run_stages_Permutation order1 order2 now c :
  Permutation order1 order2 ->
  run_stages order1 now c = run_stages order2 now c.
Proof.
  unfold run_stages.
  induction 1 as [|stage l1 l2 _ IH|s1 s2 l|l1 l2 l3 _ IH1 _ IH2]; cbn.
  - reflexivity.
  - now rewrite IH.
  - destruct (s1 now c), (s2 now c); reflexivity.
  - now rewrite IH1.
Qed.

Lemma In_survivors self hv desired clock chain kept :
  forall i,
    In kept (survivors self hv desired clock i chain)
    <-> exists j c,
          nth_error chain j = Some c
          /\ run_stages (stages self hv desired) (clock (i + j)%nat) c = true
          /\ kept = set_dte c (_calculate_dte (clock (i + j)%nat)
                                              (expiration_date c)).
Proof.
  induction chain as [|c rest IH]; intros i; cbn [survivors].
  - split; [intros []|]. intros (j & c & H & _). now destruct j.
  - assert (Hrest :
      In kept (survivors self hv desired clock (S i) rest)
      <-> exists j c',
            nth_error (c :: rest) (S j) = Some c'
            /\ run_stages (stages self hv desired) (clock (i + S j)%nat) c'
               = true
            /\ kept = set_dte c' (_calculate_dte (clock (i + S j)%nat)
                                                 (expiration_date c'))).
    { rewrite IH. cbn [nth_error].
      split; intros (j & c' & H); exists j, c';
        now replace (i + S j)%nat with (S i + j)%nat in * by lia. }
    destruct (run_stages _ (clock i) c) eqn:Hrun; cbn [In]; rewrite ?Hrest.
    + split.
      * intros [<- | (j & c' & H)]; [|now exists (S j), c'].
        exists 0%nat, c. now rewrite Nat.add_0_r.
      * intros ([|j] & c' & Hnth & Hst & Hk).
        -- left. cbn in Hnth. injection Hnth as <-.
           now rewrite Nat.add_0_r in Hk.
        -- right. now exists j, c'.
    + split.
      * intros (j & c' & H). now exists (S j), c'.
      * intros ([|j] & c' & Hnth & Hst & Hk); [|now exists j, c'].
        cbn in Hnth. injection Hnth as <-. rewrite Nat.add_0_r in Hst.
        congruence.
Qed.


(** ** The IV filter *)

Lemma inr_between_iff (lo x hi : Q) :
  @inr pyexn bool (between lo x hi) = inr true <-> lo <= x /\ x <= hi.
Proof.
  rewrite <- between_iff. split; [now intros [= ->]|now intros ->].
Qed.

(** Once the implied volatility is read as the number [iv], the verdict is
    the branch of the configured mode. *)
Lemma iv_filter_numeric self c hv iv :
  float (get (implied_volatility c)) = inr iv ->
  _passes_iv_filter self c hv
  = if (iv_filter_mode self =? "none")%string then inr true
    else if (iv_filter_mode self =? "fixed_range")%string then
      inr (between (target_iv_min self) iv (target_iv_max self))
    else if (iv_filter_mode self =? "percentile")%string then
      match get (iv_percentile c) with
      | PyNone => inr false
      | percentile =>
        match float percentile with
        | inl _ => inr false
        | inr percentile =>
          inr (between (target_iv_percentile_min self) percentile
                       (target_iv_percentile_max self))
        end
      end
    else if (iv_filter_mode self =? "vs_underlying_hv")%string then
      match hv with
      | None => inr false
      | Some underlying_hv =>
        if Qle_bool underlying_hv 0 then inr false
        else inr (between (double (iv_to_hv_ratio_min self))
                          (fdiv iv underlying_hv)
                          (double (iv_to_hv_ratio_max self)))
      end
    else inr true.
Proof.
  unfold _passes_iv_filter. intros Hiv.
  destruct (get (implied_volatility c)) as [|q|q|]; cbn in Hiv;
    try discriminate Hiv; injection Hiv as ->; cbn [float ret Monad_either];
    repeat match goal with
           | |- context [if ?b then _ else _] => destruct b; try reflexivity
           end;
    destruct (get (iv_percentile c)); reflexivity.
Qed.


(** ** Sample inputs *)

Definition with_delta_bounds (self : StrategyConfig) (lo hi : Q)
    : StrategyConfig := {|
  ticker := ticker self;
  target_dte_min := target_dte_min self;
  target_dte_max := target_dte_max self;
  target_delta_min := lo;
  target_delta_max := hi;
  iv_filter_mode := iv_filter_mode self;
  target_iv_min := target_iv_min self;
  target_iv_max := target_iv_max self;
  target_iv_percentile_min := target_iv_percentile_min self;
  target_iv_percentile_max := target_iv_percentile_max self;
  iv_to_hv_ratio_min := iv_to_hv_ratio_min self;
  iv_to_hv_ratio_max := iv_to_hv_ratio_max self;
  min_open_interest := min_open_interest self;
  min_volume := min_volume self;
  max_bid_ask_spread_pct := max_bid_ask_spread_pct self;
  risk_per_trade_pct := risk_per_trade_pct self
|}.

(** A liquid call expiring 35 days after the instant 0, of the given
    delta, implied volatility, open interest and ask (bid 0.02 below). *)
Definition sample_call (name : string) (d iv : option pyval) (oi ask : Q)
    : OptionContract := {|
  symbol := name;
  type := "call";
  expiration_date := 35 * microseconds_per_day;
  delta := d;
  implied_volatility := iv;
  iv_percentile := None;
  open_interest := Some oi;
  volume := Some 100;
  bid := Some (fsub ask (2 # 100));
  ask := Some ask;
  dte := None
|}.

Definition sample_clock : nat -> Z := fun _ => 0%Z.

Definition bullish : list signal_row := [{| signal := 1; positions := 1 |}].

Definition sample_kwargs (chain : list OptionContract) : kwargs := {|
  options_chain := Some chain;
  underlying_price := Some 100;
  underlying_hv := None
|}.

Definition with_iv_filter_mode (self : StrategyConfig) (mode : string)
    : StrategyConfig := {|
  ticker := ticker self;
  target_dte_min := target_dte_min self;
  target_dte_max := target_dte_max self;
  target_delta_min := target_delta_min self;
  target_delta_max := target_delta_max self;
  iv_filter_mode := mode;
  target_iv_min := target_iv_min self;
  target_iv_max := target_iv_max self;
  target_iv_percentile_min := target_iv_percentile_min self;
  target_iv_percentile_max := target_iv_percentile_max self;
  iv_to_hv_ratio_min := iv_to_hv_ratio_min self;
  iv_to_hv_ratio_max := iv_to_hv_ratio_max self;
  min_open_interest := min_open_interest self;
  min_volume := min_volume self;
  max_bid_ask_spread_pct := max_bid_ask_spread_pct self;
  risk_per_trade_pct := risk_per_trade_pct self
|}.

(** The IV filter at the bounds of the default configuration: fixed range
    [0.15, 0.60], and ratio to an HV of 0.20 within [1.0, 2.5]. *)
Example iv_filter_at_the_bounds :
  let iv q := sample_call "XYZ" None (Some (PyNumber q)) 200 (50 # 100) in
  let ratio := with_iv_filter_mode default_config "vs_underlying_hv" in
  map (fun q => _passes_iv_filter default_config (iv q) None)
      [14 # 100; 15 # 100; 60 # 100; 61 # 100]
  = [inr false; inr true; inr true; inr false]
  /\ map (fun q => _passes_iv_filter ratio (iv q) (Some (20 # 100)))
         [19 # 100; 20 # 100; 50 # 100; 51 # 100]
     = [inr false; inr true; inr true; inr false]
  /\ _passes_iv_filter ratio (iv (30 # 100)) None = inr false
  /\ _passes_iv_filter ratio (iv (30 # 100)) (Some 0) = inr false
  /\ _passes_iv_filter (with_iv_filter_mode default_config "none")
       (sample_call "XYZ" None (Some PyNonNumericStr) 200 (50 # 100)) None
     = inr false
  /\ _passes_iv_filter (with_iv_filter_mode default_config "percentile")
       (sample_call "XYZ" None None 200 (50 # 100)) None
     = inr true.
Proof. cbv zeta. repeat split. Qed.

(** The two quotients are the floats: at bid 0.36 and ask 0.40 the spread
    is 0.10000000000000009, above the default maximum 0.1, and the record
    is dropped; at implied volatility 2.35 and HV 0.94 the ratio is
    2.5000000000000004, above the default maximum 2.5. *)
Example quotients_in_floating_point :
  let number q := Some (PyNumber q) in
  let c := {|
    symbol := "XYZ"; type := "call";
    expiration_date := 35 * microseconds_per_day;
    delta := number (40 # 100);
    implied_volatility := number (25 # 100);
    iv_percentile := None;
    open_interest := Some 200; volume := Some 100;
    bid := Some (36 # 100); ask := Some (40 # 100);
    dte := None |} in
  double (1 # 10) < fdiv (fsub (40 # 100) (36 # 100)) (40 # 100)
  /\ examine default_config None "call" 0 c = inr None
  /\ 25 # 10 < fdiv (235 # 100) (94 # 100)
  /\ _passes_iv_filter (with_iv_filter_mode default_config "vs_underlying_hv")
       (sample_call "XYZ" None (number (235 # 100)) 200 (50 # 100))
       (Some (94 # 100))
     = inr false.
Proof. cbv zeta. repeat split; vm_compute; reflexivity. Qed.

(** ** The delta stage on a missing or malformed delta *)

Lemma stage_delta_false_examine self hv desired now c :
  stage_delta self now c = false ->
  examine self hv desired now c = inr None.
Proof.
  intros H. rewrite examine_run_stages.
  unfold run_stages, stages, forallb. rewrite H.
  now rewrite !andb_false_r.
Qed.

Lemma float_fails_stage_delta self now c :
  (forall q, float (get_default (delta c) (PyNumber 0)) <> inr q) ->
  stage_delta self now c = false.
Proof.
  unfold stage_delta. intros H.
  destruct (float _) as [e|q]; [reflexivity|now elim (H q)].
Qed.

(** C5, as stated, fails: with delta bounds [0, 0.50] the value 0.0 lies
    within the bounds, and a contract whose delta is 0.0 or missing is
    kept, but the same contract with a non-numeric string as delta is
    dropped by the delta stage. *)
Lemma C5_non_numeric_delta_is_not_read_as_zero :
  let self := with_delta_bounds default_config 0 (50 # 100) in
  let iv := Some (PyNumber (25 # 100)) in
  let malformed := sample_call "XYZ" (Some PyNonNumericStr) iv 200 (50 # 100) in
  let zero := sample_call "XYZ" (Some (PyNumber 0)) iv 200 (50 # 100) in
  let missing := sample_call "XYZ" None iv 200 (50 # 100) in
  (target_delta_min self <= 0 /\ 0 <= target_delta_max self)
  /\ stage_delta self 0 malformed = false
  /\ examine self None "call" 0 malformed = inr None
  /\ examine self None "call" 0 zero = inr (Some (set_dte zero 35))
  /\ examine self None "call" 0 missing = inr (Some (set_dte missing 35)).
Proof.
  cbv zeta. repeat split; try (vm_compute; congruence); vm_compute; reflexivity.
Qed.

(** C5, amended: a missing delta is read as 0.0, so the contract passes the
    delta stage iff 0.0 lies within the bounds; a delta that is present but
    that [float] cannot convert (a non-numeric string, or None) is dropped
    by the [except] branch whatever the bounds; with bounds [0.30, 0.50]
    both are excluded. *)
Theorem C5_missing_delta_is_zero_malformed_is_dropped self hv desired now c :
  (delta c = None ->
   (stage_delta self now c = true
    <-> target_delta_min self <= 0 /\ 0 <= target_delta_max self))
  /\ (forall v,
        delta c = Some v -> (forall q, float v <> inr q) ->
        stage_delta self now c = false
        /\ examine self hv desired now c = inr None)
  /\ (target_delta_min self == 30 # 100 ->
      target_delta_max self == 50 # 100 ->
      delta c = None \/ (exists v, delta c = Some v
                                   /\ forall q, float v <> inr q) ->
      examine self hv desired now c = inr None).
Proof.
  split; [|split].
  - intros Hd. unfold stage_delta. rewrite Hd. cbn. apply between_iff.
  - intros v Hd Hv.
    assert (stage_delta self now c = false) as H.
    { apply float_fails_stage_delta. now rewrite Hd. }
    split; [exact H|now apply stage_delta_false_examine].
  - intros Hlo Hhi [Hd | (v & Hd & Hv)];
      apply stage_delta_false_examine.
    + unfold stage_delta. rewrite Hd. cbn.
      unfold between. apply andb_false_iff. left.
      apply Qle_bool_false_iff. rewrite Hlo. reflexivity.
    + apply float_fails_stage_delta. now rewrite Hd.
Qed.

(** ** Early returns and malformed records *)

Lemma iloc_last_nonempty (signals : list signal_row) :
  signals <> [] -> exists row, iloc_last signals = inr row.
Proof.
  intros H. unfold iloc_last.
  destruct (rev signals) as [|row l] eqn:E; [|now exists row].
  apply (f_equal (@rev _)) in E. rewrite rev_involutive in E. now elim H.
Qed.

Lemma survivors_app self hv desired clock l1 l2 :
  forall i,
    survivors self hv desired clock i (l1 ++ l2)
    = survivors self hv desired clock i l1
      ++ survivors self hv desired clock (i + List.length l1) l2.
Proof.
  induction l1 as [|c l1 IH]; intros i; cbn [app survivors List.length].
  - now rewrite Nat.add_0_r.
  - rewrite IH. replace (S i + List.length l1)%nat with (i + S (List.length l1))%nat
      by lia.
    destruct (run_stages _ (clock i) c); reflexivity.
Qed.

(** A record on which one of the three coercions of the pass fails:
    [float] of the delta read by the delta stage, of a present implied
    volatility, or, in percentile mode with a numeric implied volatility,
    of a present percentile. *)
Definition coercion_fails (self : StrategyConfig) (c : OptionContract) : Prop :=
  (forall q, float (get_default (delta c) (PyNumber 0)) <> inr q)
  \/ (get (implied_volatility c) <> PyNone
      /\ forall q, float (get (implied_volatility c)) <> inr q)
  \/ (iv_filter_mode self = "percentile"%string
      /\ (exists iv, float (get (implied_volatility c)) = inr iv)
      /\ get (iv_percentile c) <> PyNone
      /\ forall q, float (get (iv_percentile c)) <> inr q).

Lemma coercion_fails_dropped self hv desired now c :
  coercion_fails self c -> run_stages (stages self hv desired) now c = false.
Proof.
  intros H.
  assert (stage_delta self now c = false \/ stage_iv self hv now c = false)
    as Hstage.
  { destruct H as [Hd | [[Hnone Hiv] | (Hmode & [iv Hiv] & Hnone & Hp)]].
    - left. now apply float_fails_stage_delta.
    - right. unfold stage_iv, _passes_iv_filter.
      destruct (get (implied_volatility c)) as [|q|q|]; cbn;
        [now elim Hnone | now elim (Hiv q) | now elim (Hiv q) | reflexivity].
    - right. unfold stage_iv.
      rewrite (iv_filter_numeric self c hv iv Hiv), Hmode. cbn.
      destruct (get (iv_percentile c)) as [|q|q|]; cbn;
        [now elim Hnone | now elim (Hp q) | now elim (Hp q) | reflexivity]. }
  unfold run_stages, stages, forallb.
  destruct Hstage as [-> | ->]; now rewrite !andb_false_r.
Qed.

(** C6: on a non-empty signals frame [define_orders] returns the empty
    list, raising nothing, when the options chain is missing or empty, when
    the underlying price is absent, and when the latest positions value is
    zero; the loop over the chain never raises, and a record on which a
    numeric coercion fails is dropped while the records before and after it
    are kept or dropped as they are without it. *)
Theorem C6_no_orders_and_no_abort self signals account_balance kw clock :
  signals <> [] ->
  (options_chain kw = None \/ options_chain kw = Some [] ->
   define_orders self signals account_balance kw clock = inr [])
  /\ (underlying_price kw = None ->
      define_orders self signals account_balance kw clock = inr [])
  /\ (forall row,
        iloc_last signals = inr row -> positions row == 0 ->
        define_orders self signals account_balance kw clock = inr [])
  /\ (forall hv desired i chain,
        exists eligible,
          eligible_from self hv desired clock i chain = inr eligible)
  /\ (forall hv desired i before bad after,
        coercion_fails self bad ->
        exists kept_before kept_after,
          eligible_from self hv desired clock i before = inr kept_before
          /\ eligible_from self hv desired clock (S (i + List.length before)) after
             = inr kept_after
          /\ eligible_from self hv desired clock i (before ++ bad :: after)
             = inr (kept_before ++ kept_after)).
Proof.
  intros Hsignals.
  destruct (iloc_last_nonempty signals Hsignals) as [latest Hlatest].
  unfold define_orders. rewrite Hlatest. cbn [bind Monad_either].
  split; [|split; [|split; [|split]]].
  - intros [-> | ->]; reflexivity.
  - intros ->. now rewrite orb_true_r.
  - intros row [= <-] Hzero. apply Qeq_bool_iff in Hzero. rewrite Hzero.
    now destruct (_ || _).
  - intros hv desired i chain. eexists. apply eligible_from_survivors.
  - intros hv desired i before bad after Hbad.
    exists (survivors self hv desired clock i before),
           (survivors self hv desired clock (S (i + List.length before)) after).
    rewrite !eligible_from_survivors, survivors_app. cbn [survivors].
    now rewrite (coercion_fails_dropped self hv desired _ bad Hbad).
Qed.

(** C6 at a concrete frame: an empty chain gives no order. *)
Lemma C6_no_orders_and_no_abort_witness :
  define_orders default_config bullish 10000
    {| options_chain := Some []; underlying_price := Some 100;
       underlying_hv := None |} sample_clock = inr [].
Proof.
  refine (proj1 (C6_no_orders_and_no_abort default_config bullish 10000 _
                   sample_clock _) _).
  - discriminate.
  - right. reflexivity.
Defined.

(** ** Selection *)

(** The order of the sort keys: [key_le k1 k2] when [k2 < k1] is false. *)
Definition key_le (k1 k2 : Q * Q) : Prop :=
  fst k1 < fst k2 \/ (fst k1 == fst k2 /\ snd k1 <= snd k2).

Lemma key_lt_iff (k1 k2 : Q * Q) :
  key_lt k1 k2 = true
  <-> fst k1 < fst k2 \/ (fst k1 == fst k2 /\ snd k1 < snd k2).
Proof.
  unfold key_lt. destruct (Qeq_bool (fst k1) (fst k2)) eqn:E.
  - apply Qeq_bool_iff in E. rewrite Qlt_bool_iff. split; [tauto|].
    intros [H | [_ H]]; [lra|exact H].
  - apply Qeq_bool_neq in E. rewrite Qlt_bool_iff. split; [tauto|].
    intros [H | [H _]]; [exact H|now elim E].
Qed.

Lemma key_lt_false_iff (k1 k2 : Q * Q) : key_lt k1 k2 = false <-> key_le k2 k1.
Proof.
  rewrite <- not_true_iff_false, key_lt_iff. unfold key_le.
  destruct (Q_dec (fst k1) (fst k2)) as [[H | H] | H];
    destruct (Qlt_le_dec (snd k1) (snd k2)); split; intros; try lra;
    try (right; split; lra).
Qed.

Lemma key_lt_le (k1 k2 : Q * Q) : key_lt k1 k2 = true -> key_le k1 k2.
Proof. rewrite key_lt_iff. unfold key_le. intros [H | [H1 H2]]; lra. Qed.

Lemma key_le_trans (k1 k2 k3 : Q * Q) :
  key_le k1 k2 -> key_le k2 k3 -> key_le k1 k3.
Proof. unfold key_le. intros [H1 | [H1 H1']] [H2 | [H2 H2']]; lra. Qed.

(** The head of the sorted list: the first element of the input whose key
    is least. *)
Lemma sort_decorated_head (l : list ((Q * Q) * OptionContract)) :
  l <> [] ->
  exists before m after rest,
    l = before ++ m :: after
    /\ sort_decorated l = m :: rest
    /\ (forall x, In x before -> key_lt (fst m) (fst x) = true)
    /\ (forall x, In x after -> key_le (fst m) (fst x)).
Proof.
  induction l as [|x l IH]; [easy|intros _].
  destruct l as [|y l].
  - exists [], x, [], []. cbn. repeat split; intros ? [].
  - destruct IH as (before & m & after & rest & Hl & Hsort & Hb & Ha);
      [discriminate|].
    cbn [sort_decorated] in *. rewrite Hsort. cbn [insert].
    destruct (key_lt (fst m) (fst x)) eqn:E.
    + exists (x :: before), m, after, (insert x rest).
      rewrite Hl. repeat split; [|exact Ha].
      intros z [<- | Hz]; [exact E|now apply Hb].
    + apply key_lt_false_iff in E.
      exists [], x, (y :: l), (m :: rest).
      repeat split; [intros ? []|].
      intros z Hz. rewrite Hl in Hz. apply in_app_or in Hz.
      apply (key_le_trans _ (fst m)); [exact E|].
      destruct Hz as [Hz | [<- | Hz]].
      * now apply key_lt_le, Hb.
      * right. split; lra.
      * now apply Ha.
Qed.

(** The delta of a record converts: it was read by the delta stage. *)
Definition delta_reads (c : OptionContract) : Prop :=
  exists d, float (get_default (delta c) (PyNumber 0)) = inr d.

Lemma decorate_ok self (l : list OptionContract) :
  Forall delta_reads l ->
  exists keyed,
    decorate self l = inr keyed
    /\ map snd keyed = l
    /\ forall kc, In kc keyed -> sort_key self (snd kc) = inr (fst kc).
Proof.
  induction 1 as [|c l [d Hd] _ (keyed & Hdec & Hmap & Hkeys)].
  - exists []. repeat split. intros ? [].
  - eexists ((_, c) :: keyed). cbn [decorate].
    unfold sort_key at 1. rewrite Hd, Hdec. cbn [bind ret Monad_either].
    split; [reflexivity|]. split; [cbn; now rewrite Hmap|].
    intros kc [<- | Hkc]; [|now apply Hkeys].
    cbn [fst snd]. unfold sort_key. now rewrite Hd.
Qed.

Lemma survivors_delta_reads self hv desired clock chain :
  forall i, Forall delta_reads (survivors self hv desired clock i chain).
Proof.
  induction chain as [|c rest IH]; intros i; cbn [survivors]; [constructor|].
  destruct (run_stages _ (clock i) c) eqn:Hrun; [|apply IH].
  constructor; [|apply IH].
  apply run_stages_spec in Hrun.
  destruct Hrun as (_ & _ & (d & Hd & _) & _). now exists d.
Qed.

(** The distance the sort ranks by, as the three float operations of the
    key yield it, and the direction a signal asks for. *)
Definition distance (self : StrategyConfig) (d : Q) : Q :=
  Qabs (fsub (Qabs d)
             (fdiv (fadd (target_delta_min self) (target_delta_max self)) 2)).

Definition direction (trade_signal : Q) : string :=
  (if Qlt_bool 0 trade_signal then "call" else "put")%string.

(** What [define_orders] does once a contract is selected: lines 234-261
    of the source, from [option_price_to_use] to the final [return]. *)
Definition size_and_emit (self : StrategyConfig) (account_balance : Q)
    (desired_option_type : string) (selected_contract : OptionContract)
    : py (list Order) :=
  option_price_to_use <- getitem (ask selected_contract) ;;
  if Qle_bool option_price_to_use 0 then ret []
  else
    quantity <- int_floordiv (fmul account_balance (risk_per_trade_pct self))
                  (fmul option_price_to_use 100) ;;
    if (quantity =? 0)%Z then ret []
    else
      print_selection selected_contract ;;
      ret [{|
        order_symbol := symbol selected_contract;
        order_type := "market";
        side := "buy_to_open";
        quantity := quantity;
        price_at_decision := option_price_to_use;
        estimated_cost :=
          fmul (fmul option_price_to_use (inject_Z quantity)) 100;
        tag := strategy_name ++ "_" ++ desired_option_type
      |}].

(** [define_orders] past its early returns: filter, sort, take the head,
    size it. *)
Lemma define_orders_past_guards self signals account_balance kw clock
    row chain :
  iloc_last signals = inr row ->
  options_chain kw = Some chain -> chain <> [] ->
  underlying_price kw <> None ->
  ~ positions row == 0 ->
  define_orders self signals account_balance kw clock
  = match survivors self (underlying_hv kw) (direction (positions row))
            clock 0 chain with
    | [] => inr []
    | eligible =>
      sorted <- sort self eligible ;;
      match sorted with
      | [] => inl IndexError
      | selected_contract :: _ =>
        size_and_emit self account_balance (direction (positions row))
          selected_contract
      end
    end.
Proof.
  intros Hrow Hchain Hne Hprice Hsignal.
  unfold define_orders. rewrite Hrow, Hchain. cbn [bind ret Monad_either].
  destruct chain as [|c0 chain0]; [now elim Hne|]. cbn [falsy orb].
  destruct (underlying_price kw); [|now elim Hprice]. cbn [is_None].
  destruct (Qeq_bool (positions row) 0) eqn:E;
    [now apply Qeq_bool_iff in E|].
  unfold eligible_contracts. cbn [get_default].
  rewrite eligible_from_survivors. fold (direction (positions row)).
  destruct (survivors _ _ _ clock 0 (c0 :: chain0)) as [|e es]; [reflexivity|].
  destruct (sort self (e :: es)) as [exn|[|selected rest]]; reflexivity.
Qed.

(** The selected contract, on a list whose deltas read. *)
Lemma sort_head self (eligible : list OptionContract) :
  eligible <> [] -> Forall delta_reads eligible ->
  exists before selected after rest ks,
    eligible = before ++ selected :: after
    /\ sort self eligible = inr (selected :: rest)
    /\ sort_key self selected = inr ks
    /\ (forall c, In c before ->
          exists kc, sort_key self c = inr kc /\ key_lt ks kc = true)
    /\ (forall c, In c after ->
          exists kc, sort_key self c = inr kc /\ key_le ks kc).
Proof.
  intros Hne Hreads.
  destruct (decorate_ok self eligible Hreads) as (keyed & Hdec & Hmap & Hkeys).
  assert (keyed <> []) as Hkne by (intros ->; cbn in Hmap; congruence).
  destruct (sort_decorated_head keyed Hkne)
    as (before & m & after & rest & Hl & Hsort & Hb & Ha).
  exists (map snd before), (snd m), (map snd after), (map snd rest), (fst m).
  assert (forall kc, In kc keyed -> In kc before \/ kc = m \/ In kc after)
    as Hcases.
  { intros kc Hin. rewrite Hl in Hin. apply in_app_or in Hin. cbn in Hin.
    intuition auto. }
  assert (forall kc, In kc before \/ kc = m \/ In kc after -> In kc keyed)
    as Hin.
  { intros kc H. rewrite Hl. apply in_or_app. cbn. intuition auto. }
  repeat split.
  - now rewrite <- Hmap, Hl, map_app.
  - unfold sort. rewrite Hdec. cbn [bind ret Monad_either].
    now rewrite Hsort.
  - apply Hkeys, Hin. auto.
  - intros c Hc. apply in_map_iff in Hc. destruct Hc as (kc & <- & Hkc).
    exists (fst kc). split; [apply Hkeys, Hin; auto|now apply Hb].
  - intros c Hc. apply in_map_iff in Hc. destruct Hc as (kc & <- & Hkc).
    exists (fst kc). split; [apply Hkeys, Hin; auto|now apply Ha].
Qed.

Lemma sort_key_reads self c d :
  float (get_default (delta c) (PyNumber 0)) = inr d ->
  sort_key self c
  = inr (distance self d, - get_default (open_interest c) 0).
Proof. intros H. unfold sort_key. now rewrite H. Qed.

Lemma sort_key_inv self c k :
  sort_key self c = inr k ->
  exists d,
    float (get_default (delta c) (PyNumber 0)) = inr d
    /\ k = (distance self d, - get_default (open_interest c) 0).
Proof.
  unfold sort_key. destruct (float _) as [e|d]; [discriminate|].
  intros [= <-]. now exists d.
Qed.

Lemma size_and_emit_symbol self account_balance desired selected orders :
  size_and_emit self account_balance desired selected = inr orders ->
  forall o, In o orders ->
    order_symbol o = symbol selected
    /\ ask selected = Some (price_at_decision o).
Proof.
  unfold size_and_emit.
  destruct (ask selected) as [price|]; [|discriminate].
  cbn [getitem bind ret Monad_either].
  destruct (Qle_bool price 0); [intros [= <-] o []|].
  destruct (int_floordiv _ _) as [exn|q]; [discriminate|].
  destruct (q =? 0)%Z; [intros [= <-] o []|].
  destruct (print_selection selected); [discriminate|].
  intros [= <-] o [<- | []]. now split.
Qed.

(** ** Sizing and emission *)

(** The final print goes through exactly when the implied volatility and
    the delta of the selected contract are numbers. *)
Lemma print_selection_ok (selected : OptionContract) :
  print_selection selected = inr tt
  <-> (exists iv, implied_volatility selected = Some (PyNumber iv))
      /\ (exists d, delta selected = Some (PyNumber d)).
Proof.
  unfold print_selection.
  destruct (implied_volatility selected) as [[|iv|iv|]|],
           (delta selected) as [[|d|d|]|]; cbn;
    (split; [try discriminate; eauto
            |intros [[? ?] [? ?]]; try discriminate; reflexivity]).
Qed.

(** Sizing of the selected contract, of ask [a] > 0: the quantity is the
    floor of the quotient of the two products balance x risk fraction and
    a x 100; quantity 0 gives no order; any other quantity gives one market
    order to buy to open, of that quantity and of estimated cost
    a x quantity x 100, provided the final print does not raise. *)
Lemma size_and_emit_spec self account_balance desired selected a :
  ask selected = Some a -> 0 < a ->
  let q := Qfloor (fmul account_balance (risk_per_trade_pct self)
                   / fmul a 100) in
  (q = 0%Z -> size_and_emit self account_balance desired selected = inr [])
  /\ (q <> 0%Z ->
      size_and_emit self account_balance desired selected
      = match print_selection selected with
        | inl e => inl e
        | inr _ =>
          inr [{| order_symbol := symbol selected;
                  order_type := "market";
                  side := "buy_to_open";
                  quantity := q;
                  price_at_decision := a;
                  estimated_cost := fmul (fmul a (inject_Z q)) 100;
                  tag := strategy_name ++ "_" ++ desired |}]
        end).
Proof.
  intros Hask Ha q. unfold size_and_emit. rewrite Hask.
  assert (0 < fmul a 100) as Hloss by (apply fmul_pos; lra).
  cbn [getitem bind ret Monad_either].
  apply Qle_bool_false_iff in Ha as Ha'. rewrite Ha'.
  unfold int_floordiv.
  destruct (Qeq_bool (fmul a 100) 0) eqn:E;
    [apply Qeq_bool_iff in E; lra|].
  cbn [bind ret Monad_either]. fold q.
  split; intros Hq.
  - now rewrite Hq.
  - apply Z.eqb_neq in Hq. rewrite Hq.
    now destruct (print_selection selected) as [e|[]].
Qed.

(** The two sizings of the specification, on a contract whose implied
    volatility and delta are numbers: balance 10000 and risk 0.01 buy 2
    contracts at ask 0.50 and none at ask 2.00. *)
Example sizing_examples :
  let number q := Some (PyNumber q) in
  let cheap := sample_call "XYZ" (number (40 # 100)) (number (25 # 100)) 200 (50 # 100) in
  let dear := sample_call "XYZ" (number (40 # 100)) (number (25 # 100)) 200 2 in
  define_orders default_config bullish 10000 (sample_kwargs [cheap])
    sample_clock
  = inr [{| order_symbol := "XYZ";
            order_type := "market";
            side := "buy_to_open";
            quantity := 2;
            price_at_decision := 50 # 100;
            estimated_cost := fmul (fmul (50 # 100) (inject_Z 2)) 100;
            tag := "AdvancedOptionsStrategy_call" |}]
  /\ define_orders default_config bullish 10000 (sample_kwargs [dear])
       sample_clock = inr [].
Proof. cbv zeta. split; vm_compute; reflexivity. Qed.

(** ** Selection and the order *)



(** The distance is the one the floats give: the decimal deltas 0.35 and
    0.45 are not at the same distance from the midpoint of the default
    bounds, and the contract of delta 0.45 is selected although its open
    interest is the lower one. *)
Example decimal_deltas_do_not_tie :
  let number q := Some (PyNumber q) in
  let chain :=
    [sample_call "D35" (number (35 # 100)) (number (25 # 100)) 300 (50 # 100);
     sample_call "D45" (number (45 # 100)) (number (25 # 100)) 200 (50 # 100)]
  in
  distance default_config (45 # 100) < distance default_config (35 # 100)
  /\ exists o,
       define_orders default_config bullish 10000 (sample_kwargs chain)
         sample_clock = inr [o]
       /\ order_symbol o = "D45"%string.
Proof.
  cbv zeta. split; [vm_compute; reflexivity|].
  eexists. split; [vm_compute; reflexivity|reflexivity].
Qed.

(** C3 holds up to the final print, which loses the order: a call with no
    'implied_volatility' key passes the lenient IV filter and is selected;
    at balance 10000, risk 0.01 and ask 0.50 the quantity is 2; formatting
    the default 'N/A' with [:.2f] then raises ValueError, so no order list
    is returned. *)
Theorem C3_order_lost_when_iv_is_missing :
  let c := sample_call "XYZ" (Some (PyNumber (40 # 100))) None 200 (50 # 100) in
  eligible_contracts default_config None "call" sample_clock [c]
  = inr [set_dte c 35]
  /\ sort default_config [set_dte c 35] = inr [set_dte c 35]
  /\ int_floordiv (fmul 10000 (risk_per_trade_pct default_config))
                  (fmul (50 # 100) 100) = inr 2%Z
  /\ print_selection (set_dte c 35) = inl ValueError
  /\ define_orders default_config bullish 10000 (sample_kwargs [c])
       sample_clock = inl ValueError.
Proof. cbv zeta. repeat split; vm_compute; reflexivity. Qed.

End AdvancedOptionsStrategy.

(** * Library functions *)

(** The order [sort_values] puts two 'date' values in: a missing date
    (NaT) goes last. *)
Definition date_le (a b : option Z) : bool :=
  match a, b with
  | Some x, Some y => (x <=? y)%Z
  | Some _, None => true
  | None, Some _ => false
  | None, None => true
  end.

(** What the code obtains from library functions whose result is not
    fixed by the code itself.

    - [sum l] is the builtin [sum] on a list of floats.  CPython adds the
      items from left to right, and since version 3.12 compensates the
      rounding errors of the additions.
    - [rolling_mean w column], for [1 <= w], holds the values of
      [column.rolling(window=w, min_periods=1).mean()]: one mean per row,
      of the window that ends at the row.  pandas updates a running sum
      as the window moves, so the last bits of a mean depend on the rows
      before the window.  With another [min_periods] the rows of full
      windows hold the same values.
    - [sort_values key df] is [df.sort_values(by=...)] on the rows [df]
      whose key is [key]: the same rows, in the order of their keys.  The
      default sort of pandas is not stable: rows of equal keys come in an
      order of its choice. *)
Class Libraries : Type := {
  sum : list Q -> Q;
  rolling_mean : nat -> list Q -> list Q;
  rolling_mean_length :
    forall (w : nat) (column : list Q),
      List.length (rolling_mean w column) = List.length column;
  sort_values : forall {A : Type}, (A -> option Z) -> list A -> list A;
  sort_values_Permutation :
    forall (A : Type) (key : A -> option Z) (df : list A),
      Permutation df (sort_values key df);
  sort_values_Sorted :
    forall (A : Type) (key : A -> option Z) (df : list A),
      StronglySorted (fun a b => date_le (key a) (key b) = true)
        (sort_values key df)
}.

(** ** A reference implementation *)

(** [sum] as CPython before 3.12 computes it: from the int 0, one float
    addition per item. *)
Definition sum_left_to_right (l : list Q) : Q := fold_left fadd l 0.

(** The rows a rolling window of size [w] covers at row [i]: rows
    [i - w + 1] to [i], fewer at the start of the series. *)
Definition rolling_window (w i : nat) (column : list Q) : list Q :=
  skipn (S i - w) (firstn (S i) column).

(** The mean of each window, summed on its own from left to right. *)
Definition windowed_means (w : nat) (column : list Q) : list Q :=
  map (fun i =>
         let window := rolling_window w i column in
         fdiv (sum_left_to_right window)
              (inject_Z (Z.of_nat (List.length window))))
      (seq 0 (List.length column)).

(** A stable insertion sort. *)
Fixpoint insert_row {A : Type} (key : A -> option Z) (x : A)
    (sorted : list A) : list A :=
  match sorted with
  | [] => [x]
  | y :: rest =>
    if date_le (key x) (key y) then x :: y :: rest
    else y :: insert_row key x rest
  end.

Fixpoint insertion_sort {A : Type} (key : A -> option Z) (df : list A)
    : list A :=
  match df with
  | [] => []
  | x :: rest => insert_row key x (insertion_sort key rest)
  end.

Lemma windowed_means_length (w : nat) (column : list Q) :
  List.length (windowed_means w column) = List.length column.
Proof. unfold windowed_means. now rewrite length_map, length_seq. Qed.

Lemma date_le_total (a b : option Z) :
  date_le a b = false -> date_le b a = true.
Proof.
  destruct a, b; cbn; try discriminate; try reflexivity.
  intros H. apply Z.leb_gt in H. apply Z.leb_le. lia.
Qed.

Lemma date_le_trans (a b c : option Z) :
  date_le a b = true -> date_le b c = true -> date_le a c = true.
Proof.
  destruct a, b, c; cbn; try discriminate; try reflexivity.
  rewrite !Z.leb_le. lia.
Qed.

Lemma insert_row_Permutation {A : Type} (key : A -> option Z) (x : A)
    (l : list A) :
  Permutation (x :: l) (insert_row key x l).
Proof.
  induction l as [|y l IH]; cbn; [reflexivity|].
  destruct (date_le (key x) (key y)); [reflexivity|].
  rewrite perm_swap. now constructor.
Qed.

Lemma insertion_sort_Permutation {A : Type} (key : A -> option Z)
    (df : list A) :
  Permutation df (insertion_sort key df).
Proof.
  induction df as [|x df IH]; cbn; [constructor|].
  rewrite <- insert_row_Permutation. now constructor.
Qed.

Lemma insert_row_Sorted {A : Type} (key : A -> option Z) (x : A)
    (l : list A) :
  StronglySorted (fun a b => date_le (key a) (key b) = true) l ->
  StronglySorted (fun a b => date_le (key a) (key b) = true)
    (insert_row key x l).
Proof.
  induction 1 as [|y l Hsorted IH Hall]; cbn.
  - constructor; constructor.
  - destruct (date_le (key x) (key y)) eqn:E.
    + constructor; [now constructor|].
      constructor; [exact E|].
      eapply Forall_impl; [|exact Hall].
      intros z Hz. now apply (date_le_trans _ (key y)).
    + constructor; [exact IH|].
      apply (Permutation_Forall (insert_row_Permutation key x l)).
      constructor; [now apply date_le_total|exact Hall].
Qed.

Lemma insertion_sort_Sorted {A : Type} (key : A -> option Z) (df : list A) :
  StronglySorted (fun a b => date_le (key a) (key b) = true)
    (insertion_sort key df).
Proof.
  induction df as [|x df IH]; cbn; [constructor|].
  now apply insert_row_Sorted.
Qed.

Definition reference : Libraries := {|
  sum := sum_left_to_right;
  rolling_mean := windowed_means;
  rolling_mean_length := windowed_means_length;
  sort_values := @insertion_sort;
  sort_values_Permutation := @insertion_sort_Permutation;
  sort_values_Sorted := @insertion_sort_Sorted
|}.

Module MovingAverageCrossoverStrategy.

(** *** State *)

Inductive signal : Set := BUY | SELL | HOLD.

(** A moving-average attribute: [None] before any data, NaN when pandas'
    rolling mean had no full window, a number otherwise. *)
Inductive ma : Type :=
| MaNone
| MaNaN
| MaValue (q : Q).

(** One historical bar: its 'date' key, when present, as a timestamp. *)
Record bar : Type := {
  date : option Z;
  close : Q
}.

(** The attributes of the strategy object.  [prices] is the deque, oldest
    price first.  A window is a natural number: with a negative one the
    constructor or the rolling mean raises, and the object is never
    initialized. *)
Record strategy : Type := {
  short_window : nat;
  long_window : nat;
  forex_pair : string;
  prices : list Q;
  short_ma : ma;
  long_ma : ma;
  historical_bars_df : option (list bar);
  data_initialized : bool;
  position : Z
}.

Definition __init__ (short_window long_window : nat) (forex_pair : string)
    : strategy := {|
  short_window := short_window;
  long_window := long_window;
  forex_pair := forex_pair;
  prices := [];
  short_ma := MaNone;
  long_ma := MaNone;
  historical_bars_df := None;
  data_initialized := false;
  position := 0
|}.

Definition set_prices (self : strategy) (p : list Q) : strategy := {|
  short_window := short_window self;
  long_window := long_window self;
  forex_pair := forex_pair self;
  prices := p;
  short_ma := short_ma self;
  long_ma := long_ma self;
  historical_bars_df := historical_bars_df self;
  data_initialized := data_initialized self;
  position := position self
|}.

Definition set_short_ma (self : strategy) (m : ma) : strategy := {|
  short_window := short_window self;
  long_window := long_window self;
  forex_pair := forex_pair self;
  prices := prices self;
  short_ma := m;
  long_ma := long_ma self;
  historical_bars_df := historical_bars_df self;
  data_initialized := data_initialized self;
  position := position self
|}.

Definition set_long_ma (self : strategy) (m : ma) : strategy := {|
  short_window := short_window self;
  long_window := long_window self;
  forex_pair := forex_pair self;
  prices := prices self;
  short_ma := short_ma self;
  long_ma := m;
  historical_bars_df := historical_bars_df self;
  data_initialized := data_initialized self;
  position := position self
|}.

Definition set_historical_bars_df (self : strategy) (df : list bar)
    : strategy := {|
  short_window := short_window self;
  long_window := long_window self;
  forex_pair := forex_pair self;
  prices := prices self;
  short_ma := short_ma self;
  long_ma := long_ma self;
  historical_bars_df := Some df;
  data_initialized := data_initialized self;
  position := position self
|}.

Definition set_data_initialized (self : strategy) (b : bool) : strategy := {|
  short_window := short_window self;
  long_window := long_window self;
  forex_pair := forex_pair self;
  prices := prices self;
  short_ma := short_ma self;
  long_ma := long_ma self;
  historical_bars_df := historical_bars_df self;
  data_initialized := b;
  position := position self
|}.

Definition set_position (self : strategy) (p : Z) : strategy := {|
  short_window := short_window self;
  long_window := long_window self;
  forex_pair := forex_pair self;
  prices := prices self;
  short_ma := short_ma self;
  long_ma := long_ma self;
  historical_bars_df := historical_bars_df self;
  data_initialized := data_initialized self;
  position := p
|}.

Section Model.

Context {lib : Libraries}.

(** *** The deque and the means *)

(** [deque(maxlen=long_window + 5)] *)
Definition maxlen (self : strategy) : nat := long_window self + 5.

(** [d.append(x)] on a bounded deque: the oldest entries fall out. *)
Definition deque_append (maxlen : nat) (d : list Q) (x : Q) : list Q :=
  let d' := d ++ [x] in
  skipn (List.length d' - maxlen) d'.

(** [l[-w:]]: the last [w] entries; all of them when [w] is 0. *)
Definition last_n (w : nat) (l : list Q) : list Q :=
  match w with
  | O => l
  | S _ => skipn (List.length l - w) l
  end.

(** [x / w] by a window size. *)
Definition div_window (x : Q) (w : nat) : py Q :=
  match w with
  | O => raise ZeroDivisionError
  | S _ => ret (fdiv x (inject_Z (Z.of_nat w)))
  end.

(** [s.rolling(window=w).mean().iloc[-1]]: min_periods is the window
    size, so the value is NaN unless the last window is full and not
    empty; it is then the last of the rolling means. *)
Definition rolling_mean_last (w : nat) (closes : list Q) : ma :=
  match w with
  | O => MaNaN
  | S _ =>
    if (w <=? List.length closes)%nat
    then match rev (rolling_mean w closes) with
         | m :: _ => MaValue m
         | [] => MaNaN
         end
    else MaNaN
  end.

(** [pd.isna(m)] *)
Definition isna (m : ma) : bool :=
  match m with
  | MaValue _ => false
  | MaNone | MaNaN => true
  end.

(** [a <= b] and [a > b] on the attributes; a NaN compares false. *)
Definition ma_le (a b : ma) : bool :=
  match a, b with
  | MaValue x, MaValue y => Qle_bool x y
  | _, _ => false
  end.

Definition ma_lt (a b : ma) : bool :=
  match a, b with
  | MaValue x, MaValue y => Qlt_bool x y
  | _, _ => false
  end.

(** *** Initialization *)

(** [df['close'].tail(n).tolist()] *)
Definition tail (n : nat) (l : list Q) : list Q :=
  skipn (List.length l - n) l.

Definition initialize_with_historical_data (self : strategy) (bars : list bar)
    : strategy * bool :=
  if match bars with [] => true | _ => false end
     || (List.length bars <? long_window self)%nat
  then (self, false)
  else
    (* Every bar has a close: the test ['close' not in columns] is false. *)
    let df := bars in
    let df :=
      if existsb (fun b => negb (is_None (date b))) df
      then sort_values date df
      else df in
    let closes := map close df in
    let self := set_historical_bars_df self df in
    let self :=
      set_prices self
        (fold_left (deque_append (maxlen self))
                   (tail (long_window self) closes) (prices self)) in
    let self := set_short_ma self (rolling_mean_last (short_window self) closes) in
    let self := set_long_ma self (rolling_mean_last (long_window self) closes) in
    if isna (short_ma self) || isna (long_ma self)
    then (set_data_initialized self false, false)
    else (set_data_initialized self true, true).

(** *** Ticks *)

Definition on_new_tick (self : strategy) (current_price : Q)
    : strategy * py signal :=
  if negb (data_initialized self) then (self, ret HOLD)
  else if Qle_bool current_price 0 then (self, ret HOLD)
  else
    let previous_short_ma := short_ma self in
    let previous_long_ma := long_ma self in
    let self :=
      set_prices self (deque_append (maxlen self) (prices self) current_price)
    in
    if (short_window self <=? List.length (prices self))%nat then
      match div_window (sum (last_n (short_window self) (prices self)))
                       (short_window self) with
      | inl e => (self, inl e)
      | inr m =>
        let self := set_short_ma self (MaValue m) in
        if (long_window self <=? List.length (prices self))%nat then
          match div_window (sum (last_n (long_window self) (prices self)))
                           (long_window self) with
          | inl e => (self, inl e)
          | inr m =>
            let self := set_long_ma self (MaValue m) in
            match previous_short_ma, previous_long_ma with
            | MaNone, _ | _, MaNone => (self, ret HOLD)
            | _, _ =>
              if ma_le previous_short_ma previous_long_ma
                 && ma_lt (long_ma self) (short_ma self)
              then
                if (position self <=? 0)%Z
                then (set_position self 1, ret BUY)
                else (self, ret HOLD)
              else if ma_le previous_long_ma previous_short_ma
                      && ma_lt (short_ma self) (long_ma self)
              then
                if (position self >=? 0)%Z
                then (set_position self (-1), ret SELL)
                else (self, ret HOLD)
              else (self, ret HOLD)
            end
          end
        else (self, ret HOLD)
      end
    else (self, ret HOLD).

Definition get_current_position (self : strategy) : Z := position self.

Definition update_position (self : strategy) (new_position : Z) : strategy :=
  set_position self new_position.

(** ** One tick with previous and updated means *)

(** [sum(l) / w] for a window that is not empty: the float the division
    of the sum yields. *)
Definition mean (l : list Q) (w : nat) : Q :=
  fdiv (sum l) (inject_Z (Z.of_nat w)).

Section Crossover.

Variable self : strategy.
Variables current_price previous_short previous_long : Q.

Hypothesis initialized : data_initialized self = true.
Hypothesis positive_price : 0 < current_price.
Hypothesis has_short : short_ma self = MaValue previous_short.
Hypothesis has_long : long_ma self = MaValue previous_long.

Let buffer : list Q := deque_append (maxlen self) (prices self) current_price.

Hypothesis short_fits :
  (1 <= short_window self /\ short_window self <= List.length buffer)%nat.
Hypothesis long_fits :
  (1 <= long_window self /\ long_window self <= List.length buffer)%nat.

Let new_short : Q := mean (last_n (short_window self) buffer) (short_window self).
Let new_long : Q := mean (last_n (long_window self) buffer) (long_window self).

(** The object after the buffer and the two means are updated. *)
Let updated : strategy :=
  set_long_ma (set_short_ma (set_prices self buffer) (MaValue new_short))
    (MaValue new_long).

Lemma on_new_tick_updated :
  on_new_tick self current_price
  = if Qle_bool previous_short previous_long && Qlt_bool new_long new_short
    then if (position self <=? 0)%Z
         then (set_position updated 1, inr BUY)
         else (updated, inr HOLD)
    else if Qle_bool previous_long previous_short
            && Qlt_bool new_short new_long
    then if (position self >=? 0)%Z
         then (set_position updated (-1), inr SELL)
         else (updated, inr HOLD)
    else (updated, inr HOLD).
Proof.
  unfold on_new_tick. rewrite initialized. cbn [negb].
  apply Qle_bool_false_iff in positive_price. rewrite positive_price.
  cbn [set_prices short_window long_window prices short_ma long_ma position
       set_short_ma set_long_ma].
  fold buffer.
  destruct short_fits as [Hs1 Hs2], long_fits as [Hl1 Hl2].
  apply Nat.leb_le in Hs2, Hl2. rewrite Hs2, Hl2.
  subst updated new_short new_long. unfold mean.
  destruct (short_window self) as [|sw]; [lia|].
  destruct (long_window self) as [|lw]; [lia|].
  cbn [div_window ret Monad_either].
  rewrite has_short, has_long. reflexivity.
Qed.

(** C7: on a tick that has previous means and yields updated ones (each
    the float that [sum] and the division by the window yield on the last
    prices of the buffer), an
    upward cross (previous short <= previous long, new short > new long)
    returns BUY and sets the position to 1 when the position is <= 0, and
    returns HOLD with the position unchanged when it is already long; a
    downward cross returns SELL and sets the position to -1 when the
    position is >= 0, HOLD with the position unchanged otherwise; with no
    cross the tick returns HOLD and leaves the position unchanged. *)
Theorem C7_crossover_transitions :
  let after := fst (on_new_tick self current_price) in
  let returned := snd (on_new_tick self current_price) in
  (previous_short <= previous_long /\ new_long < new_short ->
   ((position self <= 0)%Z -> returned = inr BUY /\ position after = 1%Z)
   /\ ((0 < position self)%Z ->
       returned = inr HOLD /\ position after = position self))
  /\ (previous_long <= previous_short /\ new_short < new_long ->
      ((0 <= position self)%Z -> returned = inr SELL /\ position after = (-1)%Z)
      /\ ((position self < 0)%Z ->
          returned = inr HOLD /\ position after = position self))
  /\ (~ (previous_short <= previous_long /\ new_long < new_short) ->
      ~ (previous_long <= previous_short /\ new_short < new_long) ->
      returned = inr HOLD /\ position after = position self)
  /\ short_ma after = MaValue new_short
  /\ long_ma after = MaValue new_long.
Proof.
  cbv zeta. rewrite on_new_tick_updated.
  destruct (Qle_bool previous_short previous_long && Qlt_bool new_long new_short)
    eqn:Hup;
    [|destruct (Qle_bool previous_long previous_short
                && Qlt_bool new_short new_long) eqn:Hdown].
  - apply andb_true_iff in Hup. destruct Hup as [Hle Hlt].
    apply Qle_bool_iff in Hle. apply Qlt_bool_iff in Hlt.
    destruct (Z.leb_spec (position self) 0); cbn [fst snd];
      repeat split; intros; try reflexivity; try lia; try lra;
      try (exfalso; tauto).
  - apply andb_true_iff in Hdown. destruct Hdown as [Hle Hlt].
    apply Qle_bool_iff in Hle. apply Qlt_bool_iff in Hlt.
    destruct (Z.geb_spec (position self) 0); cbn [fst snd];
      repeat split; intros; try reflexivity; try lia; try lra;
      try (exfalso; tauto).
  - apply andb_false_iff in Hup, Hdown.
    rewrite !Qle_bool_false_iff, !Qlt_bool_false_iff in Hup, Hdown.
    cbn [fst snd]. repeat split; intros; try reflexivity; lra.
Qed.

End Crossover.

(** ** Initialization and the ticks that follow *)

(** The calls [on_new_tick(p)] for the prices of a list, in order: the
    final object and what each call returned. *)
Fixpoint run_ticks (self : strategy) (ticks : list Q)
    : strategy * list (py signal) :=
  match ticks with
  | [] => (self, [])
  | p :: rest =>
    let (self, returned) := on_new_tick self p in
    let (self, others) := run_ticks self rest in
    (self, returned :: others)
  end.

Lemma on_new_tick_uninitialized self price :
  data_initialized self = false -> on_new_tick self price = (self, inr HOLD).
Proof. intros H. unfold on_new_tick. now rewrite H. Qed.

Lemma run_ticks_uninitialized self ticks :
  data_initialized self = false ->
  run_ticks self ticks = (self, map (fun _ => inr HOLD) ticks).
Proof.
  intros H. induction ticks as [|p rest IH]; [reflexivity|].
  cbn [run_ticks map]. now rewrite (on_new_tick_uninitialized self p H), IH.
Qed.

(** After a successful initialization both means are numbers: the test
    [previous_short_ma is None] of [on_new_tick] cannot hold on the first
    tick. *)
Lemma initialize_success_means self bars self' :
  initialize_with_historical_data self bars = (self', true) ->
  data_initialized self' = true
  /\ exists s l, short_ma self' = MaValue s /\ long_ma self' = MaValue l.
Proof.
  unfold initialize_with_historical_data.
  destruct (_ || (_ <? _)%nat); [discriminate|].
  cbn [set_long_ma set_short_ma short_ma long_ma].
  destruct (rolling_mean_last (short_window _) _) as [| |s] eqn:Hs;
    cbn [isna orb]; try discriminate.
  destruct (rolling_mean_last (long_window _) _) as [| |l] eqn:Hl;
    cbn [isna orb]; try discriminate.
  intros [= <-]. cbn. eauto.
Qed.

(** C9: with fewer bars than the long window, initialization returns
    False and changes nothing, so an uninitialized strategy stays
    uninitialized; every later tick returns HOLD and leaves the object,
    with its buffer, means and position, as it was. *)
Theorem C9_too_few_bars_stays_uninitialized self bars :
  data_initialized self = false ->
  (List.length bars < long_window self)%nat ->
  initialize_with_historical_data self bars = (self, false)
  /\ data_initialized (fst (initialize_with_historical_data self bars)) = false
  /\ forall ticks,
       run_ticks (fst (initialize_with_historical_data self bars)) ticks
       = (self, map (fun _ => inr HOLD) ticks).
Proof.
  intros Huninit Hfew.
  assert (initialize_with_historical_data self bars = (self, false)) as ->.
  { unfold initialize_with_historical_data.
    apply Nat.ltb_lt in Hfew. rewrite Hfew. now rewrite orb_true_r. }
  cbn [fst]. repeat split; [exact Huninit|].
  intros ticks. now apply run_ticks_uninitialized.
Qed.

(** ** Reachable states and the position *)

(** The objects reachable from the constructor by the three methods, when
    [update_position] is called only with arguments that satisfy
    [allowed]. *)
Inductive reachable (allowed : Z -> Prop) : strategy -> Prop :=
| reach_init (short_window long_window : nat) (forex_pair : string) :
    reachable allowed (__init__ short_window long_window forex_pair)
| reach_initialize (self : strategy) (bars : list bar) :
    reachable allowed self ->
    reachable allowed (fst (initialize_with_historical_data self bars))
| reach_tick (self : strategy) (current_price : Q) :
    reachable allowed self ->
    reachable allowed (fst (on_new_tick self current_price))
| reach_update (self : strategy) (new_position : Z) :
    reachable allowed self -> allowed new_position ->
    reachable allowed (update_position self new_position).

Definition valid_position (p : Z) : Prop := p = (-1)%Z \/ p = 0%Z \/ p = 1%Z.

Lemma initialize_position self bars :
  position (fst (initialize_with_historical_data self bars)) = position self.
Proof.
  unfold initialize_with_historical_data.
  destruct (_ || (_ <? _)%nat); [reflexivity|].
  destruct (isna _ || isna _); reflexivity.
Qed.

Lemma on_new_tick_position self current_price :
  position (fst (on_new_tick self current_price)) = position self
  \/ position (fst (on_new_tick self current_price)) = 1%Z
  \/ position (fst (on_new_tick self current_price)) = (-1)%Z.
Proof.
  unfold on_new_tick.
  repeat match goal with
         | |- context [if ?b then _ else _] => destruct b
         | |- context [match div_window ?x ?w with _ => _ end] =>
           destruct (div_window x w)
         | |- context [match short_ma ?s with _ => _ end] =>
           destruct (short_ma s)
         | |- context [match long_ma ?s with _ => _ end] =>
           destruct (long_ma s)
         end; cbn; auto.
Qed.

(** C10, amended: in every state reachable by construction, calls of
    [initialize_with_historical_data], calls of [on_new_tick] and calls of
    [update_position] with an argument in {-1, 0, 1}, the position is in
    {-1, 0, 1}. *)
Theorem C10_position_in_range self :
  reachable valid_position self -> valid_position (position self).
Proof.
  induction 1 as [sw lw pair|self bars _ IH|self price _ IH|self p _ _ Hp].
  - right. left. reflexivity.
  - now rewrite initialize_position.
  - destruct (on_new_tick_position self price) as [-> | [-> | ->]];
      unfold valid_position; auto.
  - exact Hp.
Qed.

End Model.

(** ** The theorems at concrete strategies *)

(** The model is run on the reference implementation of the library
    functions.  The bars below carry distinct dates and the sums involved
    are exact, so every implementation gives the same values. *)
#[local] Existing Instance reference.

(** C8 fails on the code: with windows 2 and 3, initialization on the
    closes 3, 2, 1 succeeds with means 1.5 and 2; the first tick, at price
    10, moves them to 5.5 and 4.333333333333333, and returns BUY with
    position 1. *)
Theorem C8_first_tick_after_initialization_can_signal :
  let bars := [ {| date := Some 1%Z; close := 3 |};
                {| date := Some 2%Z; close := 2 |};
                {| date := Some 3%Z; close := 1 |} ] in
  let initialized :=
    initialize_with_historical_data (__init__ 2 3 "EUR.USD") bars in
  snd initialized = true
  /\ short_ma (fst initialized) = MaValue (3 # 2)
  /\ long_ma (fst initialized) = MaValue 2
  /\ snd (on_new_tick (fst initialized) 10) = inr BUY
  /\ position (fst (on_new_tick (fst initialized) 10)) = 1%Z.
Proof. cbv zeta. repeat split; vm_compute; reflexivity. Qed.

(** C10 fails as stated: [update_position] stores any integer. *)
Lemma C10_update_position_is_unchecked :
  let self := update_position (__init__ 5 10 "EUR.USD") 2 in
  reachable (fun _ => True) self
  /\ position self = 2%Z
  /\ ~ valid_position (position self).
Proof.
  cbv zeta. split; [|split].
  - apply reach_update; [apply reach_init|exact I].
  - reflexivity.
  - unfold valid_position. cbn. lia.
Qed.


(** Windows 2 and 3, initialized on the closes 3, 2, 1. *)
Definition sample_strategy : strategy :=
  fst (initialize_with_historical_data (__init__ 2 3 "EUR.USD")
         [ {| date := Some 1%Z; close := 3 |};
           {| date := Some 2%Z; close := 2 |};
           {| date := Some 3%Z; close := 1 |} ]).

(** C7 on the flat sample strategy: the tick at 10 is an upward cross. *)
Lemma C7_crossover_transitions_witness :
  snd (on_new_tick sample_strategy 10) = inr BUY
  /\ position (fst (on_new_tick sample_strategy 10)) = 1%Z.
Proof.
  refine (proj1 (proj1 (C7_crossover_transitions sample_strategy 10 (3 # 2)
                          2 _ _ _ _ _ _) _) _).
  - reflexivity.
  - reflexivity.
  - reflexivity.
  - reflexivity.
  - vm_compute. lia.
  - vm_compute. lia.
  - split; vm_compute; congruence.
  - vm_compute. congruence.
Defined.

(** C9 on the example of the specification: 5 bars for a long window of 10. *)
Lemma C9_too_few_bars_stays_uninitialized_witness :
  let self := __init__ 5 10 "EUR.USD" in
  let bars := map (fun c => {| date := None; close := c |}) [1; 2; 3; 4; 5] in
  initialize_with_historical_data self bars = (self, false)
  /\ run_ticks (fst (initialize_with_historical_data self bars)) [6; 7]
     = (self, [inr HOLD; inr HOLD]).
Proof.
  cbv zeta.
  destruct (C9_too_few_bars_stays_uninitialized (__init__ 5 10 "EUR.USD")
              (map (fun c => {| date := None; close := c |}) [1; 2; 3; 4; 5])
              eq_refl ltac:(cbn; lia))
    as (Hfail & _ & Hticks).
  split; [exact Hfail|exact (Hticks [6; 7])].
Defined.

(** C10 on the sample strategy after a tick and a confirmed fill. *)
Lemma C10_position_in_range_witness :
  valid_position
    (position (update_position (fst (on_new_tick sample_strategy 10)) 0)).
Proof.
  apply C10_position_in_range.
  apply reach_update; [|right; left; reflexivity].
  apply reach_tick. apply reach_initialize. apply reach_init.
Defined.

End MovingAverageCrossoverStrategy.

(** * Further properties of the crossover strategy *)

Module CrossoverProperties.

Import MovingAverageCrossoverStrategy.

(** The paths through [on_new_tick]. *)
Ltac tick_cases :=
  unfold on_new_tick;
  repeat match goal with
         | |- context [if ?b then _ else _] => destruct b eqn:?
         | |- context [match div_window ?x ?w with _ => _ end] =>
           destruct (div_window x w) eqn:?
         | |- context [match short_ma ?s with _ => _ end] =>
           destruct (short_ma s) eqn:?
         | |- context [match long_ma ?s with _ => _ end] =>
           destruct (long_ma s) eqn:?
         end;
  cbn [fst snd set_prices set_short_ma set_long_ma set_position
       short_window long_window forex_pair prices short_ma long_ma
       historical_bars_df data_initialized position].

Section Properties.

Context {lib : Libraries}.

(** ** The bounded buffer *)

Lemma deque_append_length (m : nat) (d : list Q) (x : Q) :
  List.length (deque_append m d x) = Nat.min m (S (List.length d)).
Proof.
  unfold deque_append. rewrite length_skipn, length_app. cbn. lia.
Qed.

Lemma fold_deque_append_length (m : nat) (xs d : list Q) :
  (List.length d <= m)%nat ->
  List.length (fold_left (deque_append m) xs d)
  = Nat.min m (List.length d + List.length xs).
Proof.
  revert d. induction xs as [|x xs IH]; intros d Hd; cbn [fold_left List.length].
  - lia.
  - rewrite IH; rewrite deque_append_length; lia.
Qed.

Lemma tail_length (n : nat) (l : list Q) :
  List.length (tail n l) = Nat.min n (List.length l).
Proof. unfold tail. rewrite length_skipn. lia. Qed.

Lemma sort_values_length (df : list bar) :
  List.length (sort_values date df) = List.length df.
Proof. symmetry. apply Permutation_length, sort_values_Permutation. Qed.

(** The mean of the last window of a column, as pandas computes it. *)
Definition last_mean (w : nat) (closes : list Q) : Q :=
  last (rolling_mean w closes) 0.

Lemma rolling_mean_last_mean (w : nat) (closes : list Q) :
  (1 <= w /\ w <= List.length closes)%nat ->
  rolling_mean_last w closes = MaValue (last_mean w closes).
Proof.
  intros [H1 H2]. unfold rolling_mean_last, last_mean.
  destruct w as [|w]; [lia|].
  apply Nat.leb_le in H2 as H2'. rewrite H2'.
  pose proof (rolling_mean_length (S w) closes) as Hlen.
  destruct (rev (rolling_mean (S w) closes)) as [|m l] eqn:E.
  - apply (f_equal (@List.length Q)) in E. rewrite length_rev in E.
    cbn in E. lia.
  - apply (f_equal (@rev Q)) in E. rewrite rev_involutive in E.
    rewrite E. cbn [rev]. now rewrite last_last.
Qed.

Lemma rolling_mean_last_value (w : nat) (closes : list Q) :
  (exists v, rolling_mean_last w closes = MaValue v)
  <-> (1 <= w /\ w <= List.length closes)%nat.
Proof.
  split.
  - intros [v H]. unfold rolling_mean_last in H. destruct w as [|w];
      [discriminate|].
    destruct (Nat.leb_spec (S w) (List.length closes)); [lia|discriminate].
  - intros H. rewrite (rolling_mean_last_mean w closes H). eauto.
Qed.

(** The frame whose closes the rolling means are taken of: the bars,
    sorted by date when one of them carries a date. *)
Definition frame (bars : list bar) : list bar :=
  if existsb (fun b => negb (is_None (date b))) bars
  then sort_values date bars
  else bars.

Lemma frame_length (bars : list bar) :
  List.length (frame bars) = List.length bars.
Proof.
  unfold frame. destruct (existsb _ bars); [apply sort_values_length|easy].
Qed.

(** ** When initialization succeeds *)

(** X1: initialization reports success exactly when both windows are at
    least 1 and at most the number of bars. *)
Theorem initialize_succeeds_iff self bars :
  snd (initialize_with_historical_data self bars) = true
  <-> (1 <= short_window self /\ short_window self <= List.length bars
       /\ 1 <= long_window self /\ long_window self <= List.length bars)%nat.
Proof.
  unfold initialize_with_historical_data. fold (frame bars).
  assert (match bars with [] => true | _ :: _ => false end = true
          -> List.length bars = 0%nat) as Hempty
    by (destruct bars; [reflexivity|discriminate]).
  destruct (match bars with [] => true | _ :: _ => false end); cbn [orb].
  { cbn. split; [discriminate|]. specialize (Hempty eq_refl). lia. }
  clear Hempty.
  destruct (Nat.ltb_spec (List.length bars) (long_window self)).
  { cbn. split; [discriminate|lia]. }
  cbn [set_long_ma set_short_ma set_prices set_historical_bars_df
       short_ma long_ma short_window long_window].
  pose proof (rolling_mean_last_value (short_window self)
                (map close (frame bars))) as Hs.
  pose proof (rolling_mean_last_value (long_window self)
                (map close (frame bars))) as Hl.
  rewrite length_map, frame_length in Hs, Hl.
  destruct (rolling_mean_last (short_window self) _) as [| |s];
    destruct (rolling_mean_last (long_window self) _) as [| |l];
    cbn [isna orb snd];
    (split; [intros E; try discriminate E|intros E]).
  all: try reflexivity.
  all: try (destruct Hs as [Hs _]; destruct Hl as [Hl _];
            specialize (Hs ltac:(eauto)); specialize (Hl ltac:(eauto)); lia).
  all: try (destruct Hs as [_ Hs]; destruct Hs as [v Hv]; [lia|discriminate]).
  all: try (destruct Hl as [_ Hl]; destruct Hl as [v Hv]; [lia|discriminate]).
Qed.

(** ** What a tick can change *)

Lemma on_new_tick_frame self p :
  let after := fst (on_new_tick self p) in
  short_window after = short_window self
  /\ long_window after = long_window self
  /\ data_initialized after = data_initialized self
  /\ (prices after = prices self
      \/ prices after = deque_append (maxlen self) (prices self) p)
  /\ (short_ma after = short_ma self \/ exists v, short_ma after = MaValue v)
  /\ (long_ma after = long_ma self \/ exists v, long_ma after = MaValue v).
Proof. cbv zeta. tick_cases; repeat split; eauto. Qed.

Lemma div_window_raises x w e : div_window x w = inl e -> w = 0%nat.
Proof. destruct w; [reflexivity|discriminate]. Qed.

Lemma on_new_tick_raises self p e :
  snd (on_new_tick self p) = inl e ->
  data_initialized self = true
  /\ (short_window self = 0 \/ long_window self = 0)%nat.
Proof.
  tick_cases; try discriminate; intros _;
    (split; [now destruct (data_initialized self)|]);
    match goal with
    | H : div_window _ _ = inl _ |- _ => apply div_window_raises in H
    end; cbn in *; auto.
Qed.

(** ** The invariant of the reachable states *)

(** The buffer respects its bound; an initialized strategy has positive
    windows, numeric means and at least [long_window] buffered prices. *)
Definition healthy (self : strategy) : Prop :=
  (List.length (prices self) <= maxlen self)%nat
  /\ (data_initialized self = true ->
      (1 <= short_window self)%nat
      /\ (1 <= long_window self)%nat
      /\ (exists s, short_ma self = MaValue s)
      /\ (exists l, long_ma self = MaValue l)
      /\ (long_window self <= List.length (prices self))%nat).

(** The object an initialization that passes its first guard leaves
    behind, successful ([ok]) or not. *)
Definition loaded (self : strategy) (bars : list bar) (ok : bool)
    : strategy := {|
  short_window := short_window self;
  long_window := long_window self;
  forex_pair := forex_pair self;
  prices :=
    fold_left (deque_append (maxlen self))
      (tail (long_window self) (map close (frame bars))) (prices self);
  short_ma := rolling_mean_last (short_window self) (map close (frame bars));
  long_ma := rolling_mean_last (long_window self) (map close (frame bars));
  historical_bars_df := Some (frame bars);
  data_initialized := ok;
  position := position self
|}.

Lemma initialize_loaded self bars :
  initialize_with_historical_data self bars
  = if match bars with [] => true | _ :: _ => false end
       || (List.length bars <? long_window self)%nat
    then (self, false)
    else
      let ok :=
        negb (isna (rolling_mean_last (short_window self)
                      (map close (frame bars)))
              || isna (rolling_mean_last (long_window self)
                         (map close (frame bars)))) in
      (loaded self bars ok, ok).
Proof.
  unfold initialize_with_historical_data. fold (frame bars).
  destruct (_ || (List.length bars <? long_window self)%nat);
    [reflexivity|].
  cbn. destruct (isna _ || isna _); reflexivity.
Qed.

Lemma initialize_healthy self bars :
  healthy self -> healthy (fst (initialize_with_historical_data self bars)).
Proof.
  intros [Hlen Hinit]. rewrite initialize_loaded.
  destruct (_ || (List.length bars <? long_window self)%nat) eqn:Hguard;
    [split; assumption|].
  apply orb_false_iff in Hguard. destruct Hguard as [_ Hguard].
  apply Nat.ltb_ge in Hguard.
  cbv zeta. cbn [fst]. unfold healthy, loaded, maxlen in *.
  cbn [prices short_window long_window short_ma long_ma data_initialized].
  rewrite fold_deque_append_length by exact Hlen.
  rewrite tail_length, length_map, frame_length.
  split; [lia|]. intros Hok.
  apply negb_true_iff, orb_false_iff in Hok. destruct Hok as [Hs Hl].
  pose proof (rolling_mean_last_value (short_window self)
                (map close (frame bars))) as Hsv.
  pose proof (rolling_mean_last_value (long_window self)
                (map close (frame bars))) as Hlv.
  destruct (rolling_mean_last (short_window self) _) as [| |s];
    try discriminate Hs.
  destruct (rolling_mean_last (long_window self) _) as [| |l];
    try discriminate Hl.
  destruct Hsv as [Hsv _]. destruct Hlv as [Hlv _].
  specialize (Hsv ltac:(eauto)). specialize (Hlv ltac:(eauto)).
  repeat split; eauto; lia.
Qed.

Lemma on_new_tick_healthy self p :
  healthy self -> healthy (fst (on_new_tick self p)).
Proof.
  intros [Hlen Hinit].
  destruct (on_new_tick_frame self p)
    as (Hsw & Hlw & Hdi & Hprices & Hshort & Hlong).
  unfold healthy, maxlen in *. rewrite Hsw, Hlw, Hdi.
  assert (List.length (prices (fst (on_new_tick self p)))
          <= long_window self + 5
          /\ List.length (prices self)
             <= List.length (prices (fst (on_new_tick self p))))%nat
    as [Hupper Hlower].
  { destruct Hprices as [-> | ->]; [lia|].
    rewrite deque_append_length. lia. }
  split; [exact Hupper|]. intros Htrue.
  destruct (Hinit Htrue) as (H1 & H2 & [s Hs] & [l Hl] & H5).
  repeat split; try assumption; try lia.
  - destruct Hshort as [-> | Hv]; eauto.
  - destruct Hlong as [-> | Hv]; eauto.
Qed.

Lemma reachable_healthy allowed self : reachable allowed self -> healthy self.
Proof.
  induction 1 as [sw lw pair|self bars _ IH|self p _ IH|self q _ IH _].
  - split; [cbn; lia|discriminate].
  - now apply initialize_healthy.
  - now apply on_new_tick_healthy.
  - exact IH.
Qed.

(** X2: in every reachable state the price buffer holds at most
    long_window + 5 prices, whatever bars and ticks were fed. *)
Theorem prices_bounded_by_maxlen self :
  reachable (fun _ => True) self ->
  (List.length (prices self) <= long_window self + 5)%nat.
Proof. intros H. exact (proj1 (reachable_healthy _ _ H)). Qed.

(** X3: on a reachable strategy [on_new_tick] never raises: the division
    by a window size is only reached with a positive window. *)
Theorem on_new_tick_never_raises self current_price :
  reachable (fun _ => True) self ->
  exists returned, snd (on_new_tick self current_price) = inr returned.
Proof.
  intros H. apply reachable_healthy in H. destruct H as [_ Hinit].
  destruct (snd (on_new_tick self current_price)) as [e|returned] eqn:E;
    [|now exists returned].
  apply on_new_tick_raises in E. destruct E as [Htrue Hzero].
  destruct (Hinit Htrue) as (H1 & H2 & _). lia.
Qed.

(** X4: when the short window is longer than the buffer can ever be
    (short_window > long_window + 5), a reachable strategy never signals:
    every tick returns HOLD and leaves the position and both means as they
    were, even after a successful initialization. *)
Theorem oversized_short_window_never_signals self current_price :
  reachable (fun _ => True) self ->
  (long_window self + 5 < short_window self)%nat ->
  let after := fst (on_new_tick self current_price) in
  snd (on_new_tick self current_price) = inr HOLD
  /\ position after = position self
  /\ short_ma after = short_ma self
  /\ long_ma after = long_ma self.
Proof.
  intros Hreach Hbig. apply reachable_healthy in Hreach.
  destruct Hreach as [Hlen _]. unfold maxlen in Hlen. cbv zeta.
  unfold on_new_tick.
  destruct (negb (data_initialized self)); [now repeat split|].
  destruct (Qle_bool current_price 0); [now repeat split|].
  cbn [set_prices short_window long_window prices].
  destruct (Nat.leb_spec (short_window self)
              (List.length (deque_append (maxlen self) (prices self)
                              current_price))) as [Hfit|_];
    [|now repeat split].
  rewrite deque_append_length in Hfit. unfold maxlen in Hfit. lia.
Qed.

Lemma on_new_tick_signal_position self current_price :
  let after := fst (on_new_tick self current_price) in
  let returned := snd (on_new_tick self current_price) in
  (returned = inr BUY -> (position self <= 0)%Z /\ position after = 1%Z)
  /\ (returned = inr SELL -> (0 <= position self)%Z /\ position after = (-1)%Z)
  /\ (returned <> inr BUY -> returned <> inr SELL ->
      position after = position self).
Proof.
  cbv zeta. tick_cases; repeat split; intros; try discriminate;
    try reflexivity; try congruence;
    repeat match goal with
           | H : (_ <=? _)%Z = true |- _ => apply Z.leb_le in H
           | H : (_ >=? _)%Z = true |- _ => apply Z.geb_le in H
           end; cbn in *; try lia;
    exfalso; match goal with H : ?x <> ?x |- _ => now apply H end.
Qed.

(** X5: the returned signal and the position move together, in any state:
    BUY is returned only from a position <= 0 and leaves it at 1, SELL only
    from a position >= 0 and leaves it at -1, and a tick that returns HOLD
    or raises leaves the position unchanged. *)
Theorem signal_and_position_agree self current_price :
  let after := fst (on_new_tick self current_price) in
  let returned := snd (on_new_tick self current_price) in
  (returned = inr BUY -> (position self <= 0)%Z /\ position after = 1%Z)
  /\ (returned = inr SELL -> (0 <= position self)%Z /\ position after = (-1)%Z)
  /\ (returned <> inr BUY -> returned <> inr SELL ->
      position after = position self).
Proof. exact (on_new_tick_signal_position self current_price). Qed.

(** ** Signals alternate *)

(** The BUY and SELL signals among what a run of ticks returned. *)
Fixpoint emitted (returned : list (py signal)) : list signal :=
  match returned with
  | [] => []
  | inr BUY :: rest => BUY :: emitted rest
  | inr SELL :: rest => SELL :: emitted rest
  | _ :: rest => emitted rest
  end.

Fixpoint alternating (l : list signal) : Prop :=
  match l with
  | a :: (b :: _) as rest => a <> b /\ alternating rest
  | _ => True
  end.

(** What the position allows as the next signal. *)
Definition next_allowed (p : Z) (l : list signal) : Prop :=
  match l with
  | BUY :: _ => (p <= 0)%Z
  | SELL :: _ => (0 <= p)%Z
  | _ => True
  end.

Lemma run_ticks_alternating ticks :
  forall self,
    alternating (emitted (snd (run_ticks self ticks)))
    /\ next_allowed (position self) (emitted (snd (run_ticks self ticks))).
Proof.
  induction ticks as [|p rest IH]; intros self; [now split|].
  cbn [run_ticks].
  pose proof (on_new_tick_signal_position self p) as Hagree.
  cbv zeta in Hagree.
  destruct (on_new_tick self p) as [self1 returned]. cbn [fst snd] in Hagree.
  specialize (IH self1).
  destruct (run_ticks self1 rest) as [self2 others]. cbn [snd] in *.
  destruct Hagree as (Hbuy & Hsell & Hhold).
  destruct IH as [IHalt IHnext].
  destruct returned as [e|[ | | ]]; cbn [emitted].
  - rewrite <- (Hhold ltac:(discriminate) ltac:(discriminate)). now split.
  - destruct (Hbuy eq_refl) as [Hle Hone]. rewrite Hone in IHnext.
    split; [|exact Hle].
    destruct (emitted others) as [|[ | | ] l]; cbn in *; try tauto;
      try (split; [discriminate|assumption]). lia.
  - destruct (Hsell eq_refl) as [Hge Hone]. rewrite Hone in IHnext.
    split; [|exact Hge].
    destruct (emitted others) as [|[ | | ] l]; cbn in *; try tauto;
      try (split; [discriminate|assumption]). lia.
  - rewrite <- (Hhold ltac:(discriminate) ltac:(discriminate)). now split.
Qed.

(** X6: over any run of ticks, from any state, the signals returned
    alternate: between two BUY signals there is a SELL, and between two
    SELL signals a BUY. *)
Theorem signals_alternate self ticks :
  alternating (emitted (snd (run_ticks self ticks))).
Proof. exact (proj1 (run_ticks_alternating ticks self)). Qed.

(** ** The means follow the price history *)

(** The buffer holds the most recent prices of [history]. *)
Definition follows (self : strategy) (history : list Q) : Prop :=
  exists older, history = older ++ prices self.

Lemma deque_append_follows m d x older :
  exists older', (older ++ d) ++ [x] = older' ++ deque_append m d x.
Proof.
  unfold deque_append.
  exists (older ++ firstn (List.length (d ++ [x]) - m) (d ++ [x])).
  now rewrite <- !app_assoc, firstn_skipn.
Qed.

Lemma tail_of_suffix (w : nat) (older d : list Q) :
  (w <= List.length d)%nat -> tail w (older ++ d) = tail w d.
Proof.
  intros Hw. unfold tail. rewrite length_app, skipn_app.
  replace (List.length older + List.length d - w - List.length older)%nat
    with (List.length d - w)%nat by lia.
  rewrite skipn_all2 by lia. reflexivity.
Qed.

Lemma last_n_tail (w : nat) (l : list Q) :
  (1 <= w)%nat -> last_n w l = tail w l.
Proof. destruct w; [lia|reflexivity]. Qed.

Lemma on_new_tick_means self p ps pl :
  data_initialized self = true -> 0 < p ->
  short_ma self = MaValue ps -> long_ma self = MaValue pl ->
  let buffer := deque_append (maxlen self) (prices self) p in
  (1 <= short_window self /\ short_window self <= List.length buffer)%nat ->
  (1 <= long_window self /\ long_window self <= List.length buffer)%nat ->
  let after := fst (on_new_tick self p) in
  prices after = buffer
  /\ short_ma after
     = MaValue (mean (last_n (short_window self) buffer) (short_window self))
  /\ long_ma after
     = MaValue (mean (last_n (long_window self) buffer) (long_window self)).
Proof.
  intros Hinit Hp Hs Hl buffer Hsw Hlw. cbv zeta.
  rewrite (on_new_tick_updated self p ps pl Hinit Hp Hs Hl Hsw Hlw).
  destruct (_ && _); [destruct (_ <=? _)%Z; now repeat split|].
  destruct (_ && _); [destruct (_ >=? _)%Z; now repeat split|].
  now repeat split.
Qed.

Lemma tick_tracks_history allowed self history current_price :
  reachable allowed self ->
  data_initialized self = true ->
  (short_window self <= long_window self)%nat ->
  follows self history ->
  0 < current_price ->
  let after := fst (on_new_tick self current_price) in
  short_ma after
  = MaValue (mean (tail (short_window self) (history ++ [current_price]))
                  (short_window self))
  /\ long_ma after
     = MaValue (mean (tail (long_window self) (history ++ [current_price]))
                     (long_window self))
  /\ follows after (history ++ [current_price]).
Proof.
  intros Hreach Hinit Hwin [older ->] Hp. cbv zeta.
  apply reachable_healthy in Hreach. destruct Hreach as [Hlen Hhealthy].
  destruct (Hhealthy Hinit) as (Hs1 & Hl1 & [ps Hps] & [pl Hpl] & Hbuf).
  set (buffer := deque_append (maxlen self) (prices self) current_price).
  assert (List.length buffer
          = Nat.min (maxlen self) (S (List.length (prices self)))) as Hblen
    by apply deque_append_length.
  unfold maxlen in Hblen, Hlen.
  assert (long_window self <= List.length buffer)%nat as Hlfit by lia.
  destruct (on_new_tick_means self current_price ps pl Hinit Hp Hps Hpl
              ltac:(fold buffer; lia) ltac:(fold buffer; lia))
    as (Hprices & Hshort & Hlong).
  fold buffer in Hprices, Hshort, Hlong.
  destruct (deque_append_follows (maxlen self) (prices self) current_price
              older) as [older' Hfollows].
  fold buffer in Hfollows.
  rewrite Hshort, Hlong, !last_n_tail by lia.
  rewrite Hfollows, !tail_of_suffix by lia.
  repeat split. exists older'. now rewrite Hprices.
Qed.

(** X7: on an initialized reachable strategy whose short window is not
    longer than its long window, a tick at a positive price sets each mean
    to what [sum] and the division by the window yield on the last
    [window] prices of the whole history (the prices the buffer came from,
    followed by the tick), although only the bounded buffer is kept. *)
Theorem tick_means_are_history_means self history current_price :
  reachable (fun _ => True) self ->
  data_initialized self = true ->
  (short_window self <= long_window self)%nat ->
  follows self history ->
  0 < current_price ->
  let after := fst (on_new_tick self current_price) in
  short_ma after
  = MaValue (mean (tail (short_window self) (history ++ [current_price]))
                  (short_window self))
  /\ long_ma after
     = MaValue (mean (tail (long_window self) (history ++ [current_price]))
                     (long_window self))
  /\ follows after (history ++ [current_price]).
Proof. apply tick_tracks_history. Qed.

(** ** From initialization through the ticks *)

Lemma fold_deque_append_fits (m : nat) (xs d : list Q) :
  (List.length d + List.length xs <= m)%nat ->
  fold_left (deque_append m) xs d = d ++ xs.
Proof.
  revert d. induction xs as [|x xs IH]; intros d Hfit; cbn [fold_left].
  - now rewrite app_nil_r.
  - cbn [List.length] in Hfit.
    assert (deque_append m d x = d ++ [x]) as ->.
    { unfold deque_append. rewrite length_app. cbn [List.length].
      now replace (List.length d + 1 - m)%nat with 0%nat by lia. }
    rewrite IH by (rewrite length_app; cbn; lia).
    now rewrite <- app_assoc.
Qed.

Lemma initialize_success_bounds self bars :
  snd (initialize_with_historical_data self bars) = true ->
  (1 <= short_window self /\ short_window self <= List.length bars
   /\ 1 <= long_window self /\ long_window self <= List.length bars)%nat
  /\ fst (initialize_with_historical_data self bars) = loaded self bars true.
Proof.
  rewrite initialize_loaded.
  destruct (_ || (List.length bars <? long_window self)%nat);
    [discriminate|].
  cbv zeta. cbn [fst snd]. intros Hok. rewrite Hok. split; [|reflexivity].
  apply negb_true_iff, orb_false_iff in Hok. destruct Hok as [Hs Hl].
  pose proof (rolling_mean_last_value (short_window self)
                (map close (frame bars))) as Hsv.
  pose proof (rolling_mean_last_value (long_window self)
                (map close (frame bars))) as Hlv.
  rewrite length_map, frame_length in Hsv, Hlv.
  destruct (rolling_mean_last (short_window self) _) as [| |s];
    try discriminate Hs.
  destruct (rolling_mean_last (long_window self) _) as [| |l];
    try discriminate Hl.
  destruct Hsv as [Hsv _]. destruct Hlv as [Hlv _].
  specialize (Hsv ltac:(eauto)). specialize (Hlv ltac:(eauto)). lia.
Qed.

Lemma fresh_initialization sw lw pair bars :
  snd (initialize_with_historical_data (__init__ sw lw pair) bars) = true ->
  let seeded := fst (initialize_with_historical_data (__init__ sw lw pair) bars) in
  let closes := map close (frame bars) in
  prices seeded = tail lw closes
  /\ List.length (prices seeded) = lw
  /\ short_ma seeded = MaValue (last_mean sw closes)
  /\ long_ma seeded = MaValue (last_mean lw closes)
  /\ data_initialized seeded = true
  /\ position seeded = 0%Z.
Proof.
  intros Hok. cbv zeta.
  destruct (initialize_success_bounds _ _ Hok) as [Hb ->].
  cbn [short_window long_window __init__] in Hb.
  unfold loaded.
  cbn [prices short_ma long_ma data_initialized position __init__ maxlen
       short_window long_window].
  assert (List.length (tail lw (map close (frame bars))) = lw) as Htail.
  { rewrite tail_length, length_map, frame_length. lia. }
  change (maxlen (__init__ sw lw pair)) with (lw + 5)%nat.
  rewrite fold_deque_append_fits by (cbn [List.length]; lia).
  cbn [app]. rewrite !rolling_mean_last_mean
    by (rewrite length_map, frame_length; lia).
  now repeat split.
Qed.

(** X8: a successful initialization of a freshly constructed strategy
    seeds the buffer with the last [long_window] closes of the frame (the
    bars, in the order [sort_values] gives them when they carry a date),
    exactly [long_window] of them, sets each mean to the last value of
    pandas' rolling mean of that window over the closes, marks the
    strategy initialized and leaves the position flat. *)
Theorem initialization_seeds_buffer_and_means sw lw pair bars :
  snd (initialize_with_historical_data (__init__ sw lw pair) bars) = true ->
  let seeded := fst (initialize_with_historical_data (__init__ sw lw pair) bars) in
  let closes := map close (frame bars) in
  prices seeded = tail lw closes
  /\ List.length (prices seeded) = lw
  /\ short_ma seeded = MaValue (last_mean sw closes)
  /\ long_ma seeded = MaValue (last_mean lw closes)
  /\ data_initialized seeded = true
  /\ position seeded = 0%Z.
Proof. apply fresh_initialization. Qed.

(** The final object of a run of ticks. *)
Lemma run_ticks_step self p rest :
  fst (run_ticks self (p :: rest))
  = fst (run_ticks (fst (on_new_tick self p)) rest).
Proof.
  cbn [run_ticks]. destruct (on_new_tick self p) as [self1 r]. cbn [fst].
  now destruct (run_ticks self1 rest).
Qed.

Lemma run_ticks_track_history allowed rest :
  forall self history p,
    reachable allowed self ->
    data_initialized self = true ->
    (short_window self <= long_window self)%nat ->
    follows self history ->
    Forall (fun p => 0 < p) (p :: rest) ->
    let final := fst (run_ticks self (p :: rest)) in
    short_ma final
    = MaValue (mean (tail (short_window self) (history ++ p :: rest))
                    (short_window self))
    /\ long_ma final
       = MaValue (mean (tail (long_window self) (history ++ p :: rest))
                       (long_window self)).
Proof.
  induction rest as [|q rest IH];
    intros self history p Hreach Hinit Hwin Hfollows Hpos; cbv zeta;
    inversion Hpos as [|? ? Hp Hrest]; subst;
    destruct (tick_tracks_history allowed self history p Hreach Hinit Hwin
                Hfollows Hp) as (Hs' & Hl' & Hfollows');
    rewrite run_ticks_step.
  - cbn [run_ticks fst]. now split.
  - destruct (on_new_tick_frame self p) as (Hsw & Hlw & Hdi & _).
    replace (history ++ p :: q :: rest) with ((history ++ [p]) ++ q :: rest)
      by now rewrite <- app_assoc.
    rewrite <- Hsw, <- Hlw.
    apply IH; try assumption.
    + now apply reach_tick.
    + now rewrite Hdi.
    + now rewrite Hsw, Hlw.
Qed.

(** X9: after a successful initialization of a fresh strategy with
    short_window <= long_window, and any run of at least one tick at
    positive prices, the two means of the object are those of the last
    [window] values of the whole series (closes of the frame followed by
    the ticks), as [sum] and the division compute them: the incremental
    update over the bounded buffer loses nothing. *)
Theorem means_track_the_whole_series sw lw pair bars ticks :
  snd (initialize_with_historical_data (__init__ sw lw pair) bars) = true ->
  (sw <= lw)%nat ->
  ticks <> [] ->
  Forall (fun p => 0 < p) ticks ->
  let seeded := fst (initialize_with_historical_data (__init__ sw lw pair) bars) in
  let final := fst (run_ticks seeded ticks) in
  let series := map close (frame bars) ++ ticks in
  short_ma final = MaValue (mean (tail sw series) sw)
  /\ long_ma final = MaValue (mean (tail lw series) lw).
Proof.
  intros Hok Hwin Hne Hpos. cbv zeta.
  destruct ticks as [|p rest]; [now elim Hne|].
  destruct (fresh_initialization sw lw pair bars Hok)
    as (Hprices & _ & _ & _ & Hinit & _).
  set (seeded := fst (initialize_with_historical_data (__init__ sw lw pair)
                        bars)) in *.
  assert (short_window seeded = sw /\ long_window seeded = lw) as [Hsw Hlw].
  { subst seeded. destruct (initialize_success_bounds _ _ Hok) as [_ ->].
    now split. }
  pose proof (run_ticks_track_history (fun _ => True) rest seeded
                (map close (frame bars)) p) as H.
  rewrite Hsw, Hlw in H. apply H; try assumption.
  - subst seeded. apply reach_initialize. apply reach_init.
  - exists (firstn (List.length (map close (frame bars)) - lw)
              (map close (frame bars))).
    rewrite Hprices. unfold tail. now rewrite firstn_skipn.
Qed.

(** ** An initialization that fails after its first guard *)

(** X10: when there are enough bars for the long window but fewer than
    the short window, initialization returns False and leaves the strategy
    uninitialized, yet it is no no-op: the last [long_window] closes of the
    frame have been pushed into the buffer, the long mean is set, to the
    last value of pandas' rolling mean, and the short mean is NaN. *)
Theorem failed_initialization_still_loads self bars :
  (1 <= long_window self)%nat ->
  (long_window self <= List.length bars)%nat ->
  (List.length bars < short_window self)%nat ->
  let result := initialize_with_historical_data self bars in
  let closes := map close (frame bars) in
  snd result = false
  /\ data_initialized (fst result) = false
  /\ short_ma (fst result) = MaNaN
  /\ long_ma (fst result) = MaValue (last_mean (long_window self) closes)
  /\ prices (fst result)
     = fold_left (deque_append (maxlen self))
         (tail (long_window self) closes) (prices self)
  /\ (List.length (prices self) <= maxlen self ->
      List.length (prices (fst result))
      = Nat.min (maxlen self) (List.length (prices self) + long_window self))%nat.
Proof.
  intros Hl1 Hl2 Hs. cbv zeta. rewrite initialize_loaded.
  assert (match bars with [] => true | _ :: _ => false end = false) as ->
    by (destruct bars; [cbn in Hl2; lia|reflexivity]).
  apply Nat.ltb_ge in Hl2 as Hguard. rewrite Hguard. cbn [orb]. cbv zeta.
  assert (rolling_mean_last (short_window self) (map close (frame bars))
          = MaNaN) as Hshort.
  { unfold rolling_mean_last. destruct (short_window self) as [|w];
      [reflexivity|].
    destruct (Nat.leb_spec (S w) (List.length (map close (frame bars))));
      [|reflexivity].
    rewrite length_map, frame_length in *. lia. }
  rewrite Hshort. cbn [isna orb negb fst snd loaded data_initialized short_ma
                       long_ma prices].
  rewrite Hshort, rolling_mean_last_mean
    by (rewrite length_map, frame_length; lia).
  repeat split. intros Hlen.
  rewrite fold_deque_append_length by exact Hlen.
  rewrite tail_length, length_map, frame_length. lia.
Qed.

End Properties.

(** ** The properties at concrete strategies *)

#[local] Existing Instance reference.

Lemma initialize_succeeds_iff_witness :
  snd (initialize_with_historical_data (__init__ 2 3 "EUR.USD")
         [ {| date := None; close := 3 |};
           {| date := None; close := 2 |};
           {| date := None; close := 1 |} ]) = true.
Proof.
  apply initialize_succeeds_iff. cbn. lia.
Defined.

Lemma prices_bounded_by_maxlen_witness :
  let self := fst (on_new_tick (fst (on_new_tick sample_strategy 10)) 11) in
  (List.length (prices self) <= 8)%nat.
Proof.
  cbv zeta.
  pose proof (prices_bounded_by_maxlen (lib := reference)
                (fst (on_new_tick (fst (on_new_tick sample_strategy 10)) 11))
                (reach_tick _ _ _ (reach_tick _ _ _
                   (reach_initialize _ _ _ (reach_init _ _ _ _))))) as H.
  vm_compute in H |- *. exact H.
Defined.

Lemma on_new_tick_never_raises_witness :
  exists returned, snd (on_new_tick sample_strategy 10) = inr returned.
Proof.
  apply on_new_tick_never_raises.
  apply reach_initialize. apply reach_init.
Defined.

(** Windows 30 and 20 over 30 rising closes: initialization succeeds. *)
Definition oversized_strategy : strategy :=
  fst (initialize_with_historical_data (__init__ 30 20 "EUR.USD")
         (map (fun n => {| date := None; close := inject_Z (Z.of_nat n) |})
              (seq 1 30))).

Lemma oversized_short_window_never_signals_witness :
  data_initialized oversized_strategy = true
  /\ snd (on_new_tick oversized_strategy 1000) = inr HOLD.
Proof.
  split; [vm_compute; reflexivity|].
  refine (proj1 (oversized_short_window_never_signals (lib := reference) oversized_strategy 1000
                   _ _)).
  - apply reach_initialize. apply reach_init.
  - vm_compute. lia.
Defined.

Lemma tick_means_are_history_means_witness :
  long_ma (fst (on_new_tick sample_strategy 10))
  = MaValue (mean (tail 3 ([3; 2; 1] ++ [10])) 3).
Proof.
  refine (proj1 (proj2 (tick_means_are_history_means (lib := reference) sample_strategy [3; 2; 1]
                          10 _ _ _ _ _))).
  - apply reach_initialize. apply reach_init.
  - vm_compute. reflexivity.
  - vm_compute. lia.
  - exists []. vm_compute. reflexivity.
  - reflexivity.
Defined.

Lemma initialization_seeds_buffer_and_means_witness :
  prices sample_strategy = [3; 2; 1]
  /\ long_ma sample_strategy = MaValue 2.
Proof.
  destruct (initialization_seeds_buffer_and_means (lib := reference) 2 3 "EUR.USD"
              [ {| date := Some 1%Z; close := 3 |};
                {| date := Some 2%Z; close := 2 |};
                {| date := Some 3%Z; close := 1 |} ]
              ltac:(vm_compute; reflexivity))
    as (Hprices & _ & _ & Hlong & _).
  split.
  - etransitivity; [exact Hprices|]. vm_compute. reflexivity.
  - etransitivity; [exact Hlong|]. vm_compute. reflexivity.
Defined.

Lemma means_track_the_whole_series_witness :
  long_ma (fst (run_ticks sample_strategy [10; 4]))
  = MaValue (mean (tail 3 ([3; 2; 1] ++ [10; 4])) 3).
Proof.
  pose proof (proj2 (means_track_the_whole_series (lib := reference) 2 3 "EUR.USD"
                   [ {| date := Some 1%Z; close := 3 |};
                     {| date := Some 2%Z; close := 2 |};
                     {| date := Some 3%Z; close := 1 |} ] [10; 4]
                   ltac:(vm_compute; reflexivity) ltac:(lia)
                   ltac:(discriminate) ltac:(repeat constructor))) as H.
  vm_compute in H |- *. exact H.
Defined.

Lemma failed_initialization_still_loads_witness :
  let result :=
    initialize_with_historical_data (__init__ 5 3 "EUR.USD")
      [ {| date := None; close := 3 |};
        {| date := None; close := 2 |};
        {| date := None; close := 1 |} ] in
  snd result = false /\ prices (fst result) = [3; 2; 1].
Proof.
  cbv zeta.
  destruct (failed_initialization_still_loads (lib := reference) (__init__ 5 3 "EUR.USD")
              [ {| date := None; close := 3 |};
                {| date := None; close := 2 |};
                {| date := None; close := 1 |} ]
              ltac:(cbn; lia) ltac:(cbn; lia) ltac:(cbn; lia))
    as (Hfalse & _ & _ & _ & Hprices & _).
  split; [exact Hfalse|]. rewrite Hprices. reflexivity.
Defined.

End CrossoverProperties.

(** * Signals of the options strategy *)

Module OptionsSignals.

Import AdvancedOptionsStrategy.

Section Signals.

Context {lib : Libraries}.

(** ** [generate_signals] *)

(** [closes.rolling(window=w, min_periods=1, center=False).mean()]: pandas
    refuses a window smaller than min_periods. *)
Definition rolling (w : nat) (closes : list Q) : py (list Q) :=
  match w with
  | O => raise ValueError
  | S _ => ret (rolling_mean w closes)
  end.

(** [column.loc[mask] = value] *)
Definition loc_assign (mask : list bool) (value : Q) (column : list Q)
    : list Q :=
  map (fun mx : bool * Q => if fst mx then value else snd mx)
      (combine mask column).

(** [a > b] on two columns, row by row. *)
Definition gt (a b : list Q) : list bool :=
  map (fun xy : Q * Q => Qlt_bool (snd xy) (fst xy)) (combine a b).

(** [column == value] *)
Definition eq_mask (column : list Q) (value : Q) : list bool :=
  map (fun x => Qeq_bool x value) column.

(** [column.diff().fillna(0)]: the first row of a diff is NaN. *)
Fixpoint diff_from (previous : Q) (column : list Q) : list Q :=
  match column with
  | [] => []
  | x :: rest => (x - previous) :: diff_from x rest
  end.

Definition diff_fillna (column : list Q) : list Q :=
  match column with
  | [] => []
  | x :: rest => 0 :: diff_from x rest
  end.

Definition rows (signal positions : list Q) : list signal_row :=
  map (fun sp : Q * Q => {| signal := fst sp; positions := snd sp |})
      (combine signal positions).

(** [market_data] is its 'close' column, [None] when the frame has none;
    the two windows are what [self.config.get('short_window', 20)] and
    [self.config.get('long_window', 50)] return.  The result keeps the
    columns 'signal' and 'positions'. *)
Definition generate_signals (short_window long_window : nat)
    (market_data : option (list Q)) : py (list signal_row) :=
  match market_data with
  | None => ret []
  | Some close =>
    let signal := map (fun _ => 0) close in
    if (List.length close <? long_window)%nat
    then ret (rows signal (map (fun _ => 0) close))
    else
      short_mavg <- rolling short_window close ;;
      long_mavg <- rolling long_window close ;;
      let signal := loc_assign (gt short_mavg long_mavg) 1 signal in
      let signal := loc_assign (gt long_mavg short_mavg) (-1) signal in
      let positions := diff_fillna signal in
      let positions := loc_assign (eq_mask signal 1) 1 positions in
      let positions := loc_assign (eq_mask signal (-1)) (-1) positions in
      let positions := loc_assign (eq_mask signal 0) 0 positions in
      ret (rows signal positions)
  end.

(** ** The generated frame, row by row *)

(** The signal of row [i]: how the two rolling means of the row compare. *)
Definition signal_at (short_window long_window : nat) (closes : list Q)
    (i : nat) : Q :=
  let short := nth i (rolling_mean short_window closes) 0 in
  let long := nth i (rolling_mean long_window closes) 0 in
  if Qlt_bool short long then -1 else if Qlt_bool long short then 1 else 0.

Lemma column_by_rows (column : list Q) (n : nat) :
  List.length column = n ->
  column = map (fun i => nth i column 0) (seq 0 n).
Proof.
  intros <-. symmetry.
  apply (nth_ext _ _ 0 0); [now rewrite length_map, length_seq|].
  intros i Hi. rewrite length_map, length_seq in Hi.
  rewrite (nth_indep _ 0 (nth 0 column 0))
    by now rewrite length_map, length_seq.
  rewrite (map_nth (fun i => nth i column 0)).
  now rewrite seq_nth.
Qed.

Lemma combine_map {A B C : Type} (f : A -> B) (g : A -> C) (l : list A) :
  combine (map f l) (map g l) = map (fun x => (f x, g x)) l.
Proof. induction l as [|x l IH]; cbn; congruence. Qed.

Lemma map_const_seq {A B : Type} (b : B) (l : list A) :
  map (fun _ => b) l = map (fun _ => b) (seq 0 (List.length l)).
Proof.
  generalize 0%nat. induction l as [|x l IH]; intros n; cbn; [reflexivity|].
  now rewrite (IH (S n)).
Qed.

Lemma loc_assign_map {A : Type} (m : A -> bool) (c : A -> Q) (v : Q)
    (l : list A) :
  loc_assign (map m l) v (map c l) = map (fun x => if m x then v else c x) l.
Proof.
  unfold loc_assign. rewrite combine_map, map_map. reflexivity.
Qed.

Lemma gt_map {A : Type} (f g : A -> Q) (l : list A) :
  gt (map f l) (map g l) = map (fun x => Qlt_bool (g x) (f x)) l.
Proof. unfold gt. rewrite combine_map, map_map. reflexivity. Qed.

Definition ternary (x : Q) : Prop := x = 1 \/ x = -1 \/ x = 0.

(** The three assignments to 'positions' overwrite every row. *)
Lemma positions_overwritten (signal : list Q) :
  Forall ternary signal ->
  forall positions,
    List.length positions = List.length signal ->
    loc_assign (eq_mask signal 0) 0
      (loc_assign (eq_mask signal (-1)) (-1)
         (loc_assign (eq_mask signal 1) 1 positions))
    = signal.
Proof.
  induction 1 as [|x signal Hx _ IH]; intros [|p positions] Hlen;
    try discriminate Hlen; [reflexivity|].
  cbn in Hlen. injection Hlen as Hlen. specialize (IH positions Hlen).
  unfold loc_assign, eq_mask in *. cbn [map combine fst snd].
  rewrite IH. destruct Hx as [-> | [-> | ->]]; reflexivity.
Qed.

Lemma diff_from_length (x : Q) (column : list Q) :
  List.length (diff_from x column) = List.length column.
Proof.
  revert x. induction column as [|y column IH]; intros x; cbn; auto.
Qed.

Lemma diff_fillna_length (column : list Q) :
  List.length (diff_fillna column) = List.length column.
Proof.
  destruct column as [|x column]; cbn; [reflexivity|].
  now rewrite diff_from_length.
Qed.

Lemma signal_at_ternary sw lw closes i : ternary (signal_at sw lw closes i).
Proof.
  unfold signal_at, ternary. cbv zeta.
  destruct (Qlt_bool _ _); [auto|]. destruct (Qlt_bool _ _); auto.
Qed.

(** The frame in closed form: with enough history, row [i] carries the
    sign of the difference of the two means in both columns. *)
Lemma generate_signals_rows sw lw closes :
  (1 <= sw)%nat -> (1 <= lw)%nat -> (lw <= List.length closes)%nat ->
  generate_signals sw lw (Some closes)
  = inr (map (fun i => {| signal := signal_at sw lw closes i;
                          positions := signal_at sw lw closes i |})
             (seq 0 (List.length closes))).
Proof.
  intros Hsw Hlw Hlen. unfold generate_signals.
  apply Nat.ltb_ge in Hlen. rewrite Hlen.
  destruct sw as [|sw]; [lia|]. destruct lw as [|lw]; [lia|].
  cbn [rolling bind ret Monad_either].
  set (n := List.length closes).
  rewrite (column_by_rows (rolling_mean (S sw) closes) n)
    by apply rolling_mean_length.
  rewrite (column_by_rows (rolling_mean (S lw) closes) n)
    by apply rolling_mean_length.
  rewrite (map_const_seq 0 closes), !gt_map, !loc_assign_map.
  fold n.
  assert (Hsignal :
    map (fun i =>
           if Qlt_bool (nth i (rolling_mean (S sw) closes) 0)
                       (nth i (rolling_mean (S lw) closes) 0)
           then -1
           else if Qlt_bool (nth i (rolling_mean (S lw) closes) 0)
                            (nth i (rolling_mean (S sw) closes) 0)
                then 1 else 0) (seq 0 n)
    = map (signal_at (S sw) (S lw) closes) (seq 0 n)) by reflexivity.
  rewrite Hsignal.
  rewrite positions_overwritten.
  - unfold rows. now rewrite combine_map, map_map.
  - apply Forall_forall. intros x Hx. apply in_map_iff in Hx.
    destruct Hx as (i & <- & _). apply signal_at_ternary.
  - now rewrite diff_fillna_length.
Qed.

(** X11: with windows of at least 1, [generate_signals] returns one row
    per close; on every row 'positions' equals 'signal', a value among 1,
    -1 and 0: the diff of the signal is overwritten everywhere, so
    'positions' is the state of the means, not the crossover. *)
Theorem positions_mirror_signal sw lw closes :
  (1 <= sw)%nat -> (1 <= lw)%nat ->
  exists frame,
    generate_signals sw lw (Some closes) = inr frame
    /\ List.length frame = List.length closes
    /\ forall row, In row frame ->
         positions row = signal row
         /\ (signal row = 1 \/ signal row = -1 \/ signal row = 0).
Proof.
  intros Hsw Hlw.
  destruct (Nat.ltb_spec (List.length closes) lw) as [Hshort|Hlong].
  - unfold generate_signals. apply Nat.ltb_lt in Hshort. rewrite Hshort.
    eexists. split; [reflexivity|]. unfold rows.
    rewrite combine_map, map_map, !length_map. split; [reflexivity|].
    intros row Hrow. apply in_map_iff in Hrow.
    destruct Hrow as (x & <- & _). cbn. auto.
  - rewrite (generate_signals_rows sw lw closes Hsw Hlw Hlong).
    eexists. split; [reflexivity|]. rewrite length_map, length_seq.
    split; [reflexivity|].
    intros row Hrow. apply in_map_iff in Hrow.
    destruct Hrow as (i & <- & _). cbn [signal positions].
    split; [reflexivity|apply signal_at_ternary].
Qed.

(** ** From the frame to the orders *)

Lemma iloc_last_map_seq (f : nat -> signal_row) (n : nat) :
  (1 <= n)%nat -> iloc_last (map f (seq 0 n)) = inr (f (n - 1)%nat).
Proof.
  intros Hn. destruct n as [|n]; [lia|].
  unfold iloc_last. rewrite seq_S, map_app, rev_app_distr. cbn.
  now rewrite Nat.sub_0_r.
Qed.

(** The rolling mean of the latest row. *)
Definition latest_mean (w : nat) (closes : list Q) : Q :=
  last (rolling_mean w closes) 0.

Lemma nth_latest (w : nat) (closes : list Q) :
  nth (List.length closes - 1) (rolling_mean w closes) 0
  = latest_mean w closes.
Proof.
  unfold latest_mean. rewrite <- (rolling_mean_length w closes).
  generalize (rolling_mean w closes). intros l.
  destruct l as [|x l] using rev_ind; [reflexivity|].
  rewrite last_last, length_app. cbn [List.length].
  rewrite app_nth2 by lia.
  now replace (List.length l + 1 - 1 - List.length l)%nat with 0%nat by lia.
Qed.

(** [define_orders] reads the frame through its last row only. *)
Lemma define_orders_latest self signals row account_balance kw clock :
  iloc_last signals = inr row ->
  define_orders self signals account_balance kw clock
  = define_orders self [row] account_balance kw clock.
Proof. intros H. unfold define_orders. now rewrite H. Qed.

Lemma define_orders_flat self row account_balance kw clock :
  positions row == 0 ->
  define_orders self [row] account_balance kw clock = inr [].
Proof.
  intros H. unfold define_orders.
  change (iloc_last [row]) with (@inr pyexn signal_row row).
  cbn [bind Monad_either].
  apply Qeq_bool_iff in H. rewrite H. now destruct (_ || _).
Qed.

Definition bearish : list signal_row := [{| signal := -1; positions := -1 |}].

(** X12: with enough history, the direction of [define_orders] on the
    generated frame is decided by the level of the two rolling means on the
    latest bar, as pandas computes them, not by a crossover: it acts as on
    a bullish signal whenever the short mean is above the long mean, as on
    a bearish signal whenever it is below, and returns no order when the
    two are equal. *)
Theorem latest_means_decide_the_direction sw lw closes :
  (1 <= sw)%nat -> (1 <= lw)%nat -> (lw <= List.length closes)%nat ->
  let short := latest_mean sw closes in
  let long := latest_mean lw closes in
  exists frame,
    generate_signals sw lw (Some closes) = inr frame
    /\ forall self account_balance kw clock,
         (long < short ->
          define_orders self frame account_balance kw clock
          = define_orders self bullish account_balance kw clock)
         /\ (short < long ->
             define_orders self frame account_balance kw clock
             = define_orders self bearish account_balance kw clock)
         /\ (short == long ->
             define_orders self frame account_balance kw clock = inr []).
Proof.
  intros Hsw Hlw Hlen. cbv zeta.
  rewrite (generate_signals_rows sw lw closes Hsw Hlw Hlen).
  eexists. split; [reflexivity|].
  intros self account_balance kw clock.
  assert (1 <= List.length closes)%nat as Hn by lia.
  pose proof (iloc_last_map_seq
                (fun i => {| signal := signal_at sw lw closes i;
                             positions := signal_at sw lw closes i |})
                (List.length closes) Hn) as Hlast.
  rewrite (define_orders_latest _ _ _ _ _ _ Hlast).
  unfold signal_at. cbv zeta. rewrite !nth_latest.
  set (short := latest_mean sw closes).
  set (long := latest_mean lw closes).
  split; [|split]; intros Hcmp.
  - apply Qlt_bool_iff in Hcmp as Hup. rewrite Hup.
    assert (Qlt_bool short long = false) as ->
      by (apply Qlt_bool_false_iff; lra).
    reflexivity.
  - apply Qlt_bool_iff in Hcmp as Hdown. now rewrite Hdown.
  - assert (Qlt_bool short long = false) as ->
      by (apply Qlt_bool_false_iff; lra).
    assert (Qlt_bool long short = false) as ->
      by (apply Qlt_bool_false_iff; lra).
    now apply define_orders_flat.
Qed.

(** X13: with at least one close but fewer than long_window, every row of
    the generated frame is flat and [define_orders] on it returns no order,
    whatever the chain and the balance. *)
Theorem short_history_gives_no_order sw lw closes :
  (1 <= List.length closes)%nat -> (List.length closes < lw)%nat ->
  exists frame,
    generate_signals sw lw (Some closes) = inr frame
    /\ List.length frame = List.length closes
    /\ (forall row, In row frame -> signal row = 0 /\ positions row = 0)
    /\ forall self account_balance kw clock,
         define_orders self frame account_balance kw clock = inr [].
Proof.
  intros Hn Hshort. unfold generate_signals.
  apply Nat.ltb_lt in Hshort. rewrite Hshort.
  eexists. split; [reflexivity|]. unfold rows.
  rewrite combine_map, map_map. cbn [fst snd].
  split; [now rewrite length_map|]. split.
  - intros row Hrow. apply in_map_iff in Hrow.
    destruct Hrow as (x & <- & _). now split.
  - intros self account_balance kw clock.
    rewrite (map_const_seq {| signal := 0; positions := 0 |} closes).
    rewrite (define_orders_latest _ _ _ _ _ _
               (iloc_last_map_seq _ _ Hn)).
    now apply define_orders_flat.
Qed.

(** X14: a frame without a 'close' column, or an empty one, makes
    [generate_signals] return a frame without rows, and on that frame
    [define_orders] raises IndexError instead of returning no order. *)
Theorem no_rows_make_define_orders_raise sw lw market_data :
  market_data = None \/ (market_data = Some [] /\ (1 <= lw)%nat) ->
  generate_signals sw lw market_data = inr []
  /\ forall self account_balance kw clock,
       define_orders self [] account_balance kw clock = inl IndexError.
Proof.
  intros H. split; [|reflexivity].
  destruct H as [-> | [-> Hlw]]; [reflexivity|].
  unfold generate_signals. cbn [List.length].
  apply Nat.ltb_lt in Hlw. now rewrite Hlw.
Qed.

End Signals.

(** ** The properties at concrete frames *)

#[local] Existing Instance reference.

Lemma positions_mirror_signal_witness :
  exists frame,
    generate_signals 2 3 (Some [1; 2; 3; 4; 3]) = inr frame
    /\ List.length frame = 5%nat.
Proof.
  destruct (positions_mirror_signal 2 3 [1; 2; 3; 4; 3] ltac:(lia) ltac:(lia))
    as (frame & Hframe & Hlen & _).
  exists frame. split; [exact Hframe|exact Hlen].
Defined.

Lemma latest_means_decide_the_direction_witness :
  exists frame,
    generate_signals 2 3 (Some [1; 2; 3; 4]) = inr frame
    /\ define_orders default_config frame 10000 (sample_kwargs []) sample_clock
       = define_orders default_config bullish 10000 (sample_kwargs [])
           sample_clock.
Proof.
  destruct (latest_means_decide_the_direction 2 3 [1; 2; 3; 4]
              ltac:(lia) ltac:(lia) ltac:(cbn; lia))
    as (frame & Hframe & Horders).
  exists frame. split; [exact Hframe|].
  apply (proj1 (Horders default_config 10000 (sample_kwargs [])
                  sample_clock)).
  vm_compute. reflexivity.
Defined.

Lemma short_history_gives_no_order_witness :
  exists frame,
    generate_signals 20 50 (Some [100; 101; 102]) = inr frame
    /\ define_orders default_config frame 10000 (sample_kwargs [])
         sample_clock = inr [].
Proof.
  destruct (short_history_gives_no_order 20 50 [100; 101; 102]
              ltac:(cbn; lia) ltac:(cbn; lia))
    as (frame & Hframe & _ & _ & Horders).
  exists frame. split; [exact Hframe|apply Horders].
Defined.

Lemma no_rows_make_define_orders_raise_witness :
  generate_signals 20 50 None = inr []
  /\ define_orders default_config [] 10000 (sample_kwargs []) sample_clock
     = inl IndexError.
Proof.
  destruct (no_rows_make_define_orders_raise 20 50 None (or_introl eq_refl))
    as [Hframe Horders].
  split; [exact Hframe|apply Horders].
Defined.

End OptionsSignals.

(** * Construction and reconfiguration of the options strategy *)

Module OptionsConfiguration.

Import AdvancedOptionsStrategy.

(** A [config] dict passed by a caller: the keys it holds. *)
Module Given.
Record t : Type := {
  ticker : option string;
  target_dte_min : option Q;
  target_dte_max : option Q;
  target_delta_min : option Q;
  target_delta_max : option Q;
  iv_filter_mode : option string;
  target_iv_min : option Q;
  target_iv_max : option Q;
  target_iv_percentile_min : option Q;
  target_iv_percentile_max : option Q;
  iv_to_hv_ratio_min : option Q;
  iv_to_hv_ratio_max : option Q;
  min_open_interest : option Q;
  min_volume : option Q;
  max_bid_ask_spread_pct : option Q;
  risk_per_trade_pct : option Q
}.
End Given.

(** The empty dict [{}]. *)
Definition empty : Given.t := {|
  Given.ticker := None;
  Given.target_dte_min := None;
  Given.target_dte_max := None;
  Given.target_delta_min := None;
  Given.target_delta_max := None;
  Given.iv_filter_mode := None;
  Given.target_iv_min := None;
  Given.target_iv_max := None;
  Given.target_iv_percentile_min := None;
  Given.target_iv_percentile_max := None;
  Given.iv_to_hv_ratio_min := None;
  Given.iv_to_hv_ratio_max := None;
  Given.min_open_interest := None;
  Given.min_volume := None;
  Given.max_bid_ask_spread_pct := None;
  Given.risk_per_trade_pct := None
|}.

(** [{**base, **given}], which is also what [base.update(given)] leaves. *)
Definition merge (base : StrategyConfig) (given : Given.t) : StrategyConfig := {|
  ticker := get_default (Given.ticker given) (ticker base);
  target_dte_min :=
    get_default (Given.target_dte_min given) (target_dte_min base);
  target_dte_max :=
    get_default (Given.target_dte_max given) (target_dte_max base);
  target_delta_min :=
    get_default (Given.target_delta_min given) (target_delta_min base);
  target_delta_max :=
    get_default (Given.target_delta_max given) (target_delta_max base);
  iv_filter_mode :=
    get_default (Given.iv_filter_mode given) (iv_filter_mode base);
  target_iv_min := get_default (Given.target_iv_min given) (target_iv_min base);
  target_iv_max := get_default (Given.target_iv_max given) (target_iv_max base);
  target_iv_percentile_min :=
    get_default (Given.target_iv_percentile_min given)
      (target_iv_percentile_min base);
  target_iv_percentile_max :=
    get_default (Given.target_iv_percentile_max given)
      (target_iv_percentile_max base);
  iv_to_hv_ratio_min :=
    get_default (Given.iv_to_hv_ratio_min given) (iv_to_hv_ratio_min base);
  iv_to_hv_ratio_max :=
    get_default (Given.iv_to_hv_ratio_max given) (iv_to_hv_ratio_max base);
  min_open_interest :=
    get_default (Given.min_open_interest given) (min_open_interest base);
  min_volume := get_default (Given.min_volume given) (min_volume base);
  max_bid_ask_spread_pct :=
    get_default (Given.max_bid_ask_spread_pct given)
      (max_bid_ask_spread_pct base);
  risk_per_trade_pct :=
    get_default (Given.risk_per_trade_pct given) (risk_per_trade_pct base)
|}.

(** [AdvancedOptionsStrategy(config)]: [StrategyBase.__init__] replaces a
    missing config by [{}], the defaults are merged under it, and the
    merged config is validated. *)
Definition __init__ (config : option Given.t) : py StrategyConfig :=
  let config := get_default config empty in
  let self := merge default_config config in
  _validate_config self ;;
  ret self.

(** [StrategyBase.update_config] *)
Definition update_config (self : StrategyConfig) (new_config : Given.t)
    : StrategyConfig :=
  merge self new_config.

(** A dict holding the single key 'iv_filter_mode'. *)
Definition only_mode (mode : string) : Given.t := {|
  Given.ticker := None;
  Given.target_dte_min := None;
  Given.target_dte_max := None;
  Given.target_delta_min := None;
  Given.target_delta_max := None;
  Given.iv_filter_mode := Some mode;
  Given.target_iv_min := None;
  Given.target_iv_max := None;
  Given.target_iv_percentile_min := None;
  Given.target_iv_percentile_max := None;
  Given.iv_to_hv_ratio_min := None;
  Given.iv_to_hv_ratio_max := None;
  Given.min_open_interest := None;
  Given.min_volume := None;
  Given.max_bid_ask_spread_pct := None;
  Given.risk_per_trade_pct := None
|}.

Lemma mode_known_iff (mode : string) :
  existsb (String.eqb mode) iv_filter_modes = true
  <-> In mode iv_filter_modes.
Proof.
  rewrite existsb_exists. split.
  - intros (m & Hin & Heq). apply String.eqb_eq in Heq. now subst.
  - intros Hin. exists mode. split; [exact Hin|apply String.eqb_refl].
Qed.

Lemma construction_checks_the_mode (config : option Given.t) :
  let merged := merge default_config (get_default config empty) in
  (In (iv_filter_mode merged) iv_filter_modes ->
   __init__ config = inr merged)
  /\ (~ In (iv_filter_mode merged) iv_filter_modes ->
      __init__ config = inl ValueError)
  /\ __init__ None = inr default_config.
Proof.
  cbv zeta. unfold __init__, _validate_config. cbv zeta.
  split; [|split].
  - intros H. apply mode_known_iff in H. now rewrite H.
  - intros H. rewrite <- mode_known_iff in H.
    apply not_true_is_false in H. now rewrite H.
  - reflexivity.
Qed.

(** X16: [update_config] does not validate.  A mode that construction
    refuses is installed by [update_config], and the IV filter of the
    reconfigured strategy then passes every contract whose implied
    volatility is missing or numeric, whatever its value. *)
Theorem update_config_bypasses_validation (self : StrategyConfig)
    (mode : string) :
  ~ In mode iv_filter_modes ->
  let reconfigured := update_config self (only_mode mode) in
  __init__ (Some (only_mode mode)) = inl ValueError
  /\ iv_filter_mode reconfigured = mode
  /\ forall contract hv,
       (get (implied_volatility contract) = PyNone
        \/ exists iv, float (get (implied_volatility contract)) = inr iv) ->
       _passes_iv_filter reconfigured contract hv = inr true.
Proof.
  intros Hunknown. cbv zeta. split; [|split].
  - apply (proj1 (proj2 (construction_checks_the_mode
                           (Some (only_mode mode))))).
    exact Hunknown.
  - reflexivity.
  - intros contract hv [Hnone | [iv Hiv]].
    + unfold _passes_iv_filter. now rewrite Hnone.
    + rewrite (iv_filter_numeric _ contract hv iv Hiv).
      change (iv_filter_mode (update_config self (only_mode mode)))
        with mode.
      assert (forall m, In m iv_filter_modes -> (mode =? m)%string = false)
        as Hneq.
      { intros m Hm. apply String.eqb_neq. intros ->. now apply Hunknown. }
      rewrite !Hneq by (cbn; auto). reflexivity.
Qed.

Lemma update_config_bypasses_validation_witness :
  __init__ (Some (only_mode "bogus")) = inl ValueError
  /\ _passes_iv_filter (update_config default_config (only_mode "bogus"))
       (sample_call "XYZ" None (Some (PyNumber 99)) 200 (50 # 100)) None
     = inr true.
Proof.
  destruct (update_config_bypasses_validation default_config "bogus")
    as (Hinit & _ & Hfilter).
  - cbn. intros [H | [H | [H | [H | []]]]]; discriminate H.
  - split; [exact Hinit|]. apply Hfilter. right. now exists 99.
Defined.

End OptionsConfiguration.

(** * Further properties of [define_orders] *)

Module OptionsOrders.

Import AdvancedOptionsStrategy.

(** ** Days to expiration *)

(** X17: days to expiration count whole days only.  For an expiration at
    midnight [n] days after today's midnight, the DTE is [n] at midnight
    and [n - 1] at any later instant of the day; hence a contract expiring
    exactly target_dte_min calendar days ahead fails the DTE stage once the
    day has begun. *)
Theorem dte_counts_whole_days self midnight n time_of_day c :
  (0 < time_of_day < microseconds_per_day)%Z ->
  expiration_date c = (midnight + n * microseconds_per_day)%Z ->
  _calculate_dte midnight (expiration_date c) = n
  /\ _calculate_dte (midnight + time_of_day) (expiration_date c) = (n - 1)%Z
  /\ (target_dte_min self == inject_Z n ->
      stage_dte self (midnight + time_of_day) c = false).
Proof.
  intros Htod Hexp. rewrite Hexp. unfold _calculate_dte, stage_dte.
  rewrite Hexp. unfold _calculate_dte.
  assert ((midnight + n * microseconds_per_day - midnight)
          / microseconds_per_day = n)%Z as H0.
  { replace (midnight + n * microseconds_per_day - midnight)%Z
      with (n * microseconds_per_day)%Z by lia.
    apply Z.div_mul. discriminate. }
  assert ((midnight + n * microseconds_per_day - (midnight + time_of_day))
          / microseconds_per_day = n - 1)%Z as H1.
  { symmetry.
    apply (Z.div_unique_pos _ _ _ (microseconds_per_day - time_of_day)%Z);
      lia. }
  rewrite H0, H1. repeat split.
  intros Hmin. unfold between. apply andb_false_iff. left.
  apply Qle_bool_false_iff. rewrite Hmin. rewrite <- Zlt_Qlt. lia.
Qed.

Lemma dte_counts_whole_days_witness :
  let c := sample_call "XYZ" None None 200 (50 # 100) in
  _calculate_dte 0 (expiration_date c) = 35%Z
  /\ _calculate_dte 1 (expiration_date c) = 34%Z.
Proof.
  cbv zeta.
  destruct (dte_counts_whole_days default_config 0 35 1
              (sample_call "XYZ" None None 200 (50 # 100))
              ltac:(unfold microseconds_per_day; lia) eq_refl)
    as (H0 & H1 & _).
  split; [exact H0|exact H1].
Defined.

(** ** What an emitted order looks like *)

Lemma define_orders_inv self signals account_balance kw clock orders :
  define_orders self signals account_balance kw clock = inr orders ->
  orders = []
  \/ exists desired selected,
       size_and_emit self account_balance desired selected = inr orders.
Proof.
  unfold define_orders.
  destruct (iloc_last signals) as [e|row]; [discriminate|].
  cbn [bind Monad_either].
  destruct (_ || _); [intros [= <-]; now left|].
  destruct (Qeq_bool _ _); [intros [= <-]; now left|].
  destruct (eligible_contracts _ _ _ _ _) as [e|[|c eligible]];
    [discriminate|intros [= <-]; now left|].
  destruct (sort self (c :: eligible)) as [e|[|selected rest]];
    try discriminate.
  intros H. right. eexists. exists selected. exact H.
Qed.

Lemma size_and_emit_inv self account_balance desired selected orders :
  size_and_emit self account_balance desired selected = inr orders ->
  orders = []
  \/ exists a,
       let q := Qfloor (fmul account_balance (risk_per_trade_pct self)
                        / fmul a 100) in
       ask selected = Some a /\ 0 < a /\ q <> 0%Z
       /\ orders
          = [{| order_symbol := symbol selected;
                order_type := "market";
                side := "buy_to_open";
                quantity := q;
                price_at_decision := a;
                estimated_cost := fmul (fmul a (inject_Z q)) 100;
                tag := strategy_name ++ "_" ++ desired |}].
Proof.
  unfold size_and_emit.
  destruct (ask selected) as [a|]; [|discriminate].
  cbn [getitem bind ret Monad_either].
  destruct (Qle_bool a 0) eqn:Ha; [intros [= <-]; now left|].
  apply Qle_bool_false_iff in Ha.
  unfold int_floordiv. destruct (Qeq_bool (fmul a 100) 0); [discriminate|].
  cbn [bind ret Monad_either].
  destruct (Z.eqb_spec (Qfloor (fmul account_balance (risk_per_trade_pct self)
                                / fmul a 100)) 0) as [Hq|Hq];
    [intros [= <-]; now left|].
  destruct (print_selection selected); [discriminate|].
  intros [= <-]. right. exists a. cbv zeta. now repeat split.
Qed.

(** X18: whenever [define_orders] returns an order, it returns exactly
    one: a market order to buy to open, at a positive price, of a quantity
    that is not 0.  With the risk budget and the loss per contract as the
    code computes them (the floats balance x risk_per_trade_pct and
    price x 100), the quantity is the number of whole contracts that fit:
    quantity x loss <= budget < (quantity + 1) x loss.  It is positive when
    the budget is not negative, and negative when the budget is negative: a
    negative balance is not refused.  The estimated cost is the float
    price x quantity x 100. *)
Theorem order_cost_within_the_risk_budget self signals account_balance kw
    clock orders o :
  define_orders self signals account_balance kw clock = inr orders ->
  In o orders ->
  let budget := fmul account_balance (risk_per_trade_pct self) in
  let loss := fmul (price_at_decision o) 100 in
  orders = [o]
  /\ side o = "buy_to_open"%string
  /\ order_type o = "market"%string
  /\ 0 < price_at_decision o
  /\ quantity o <> 0%Z
  /\ 0 < loss
  /\ inject_Z (quantity o) * loss <= budget
  /\ budget < inject_Z (quantity o + 1) * loss
  /\ (0 <= budget -> (0 < quantity o)%Z)
  /\ (budget < 0 -> (quantity o < 0)%Z)
  /\ estimated_cost o
     = fmul (fmul (price_at_decision o) (inject_Z (quantity o))) 100.
Proof.
  intros Horders Ho. cbv zeta.
  destruct (define_orders_inv _ _ _ _ _ _ Horders)
    as [-> | (desired & selected & Hsize)]; [now elim Ho|].
  destruct (size_and_emit_inv _ _ _ _ _ Hsize)
    as [-> | (a & Hask & Ha & Hq & ->)]; [now elim Ho|].
  destruct Ho as [<- | []]. cbn [side order_type price_at_decision quantity
                                 estimated_cost].
  set (budget := fmul account_balance (risk_per_trade_pct self)) in *.
  assert (0 < fmul a 100) as Hpos by (apply fmul_pos; lra).
  set (loss := fmul a 100) in *.
  set (q := Qfloor (budget / loss)) in *.
  assert (budget == budget / loss * loss) as Hbudget by (field; lra).
  pose proof (Qfloor_le (budget / loss)) as Hlow.
  pose proof (Qlt_floor (budget / loss)) as Hhigh.
  fold q in Hlow, Hhigh.
  assert (inject_Z q * loss <= budget) as Hcost.
  { rewrite Hbudget at 1. apply Qmult_le_compat_r; [exact Hlow|lra]. }
  assert (budget < inject_Z (q + 1) * loss) as Hnext.
  { rewrite Hbudget at 1. apply Qmult_lt_compat_r; [exact Hpos|exact Hhigh]. }
  split; [reflexivity|]. split; [reflexivity|]. split; [reflexivity|].
  split; [exact Ha|]. split; [exact Hq|]. split; [exact Hpos|].
  split; [exact Hcost|]. split; [exact Hnext|].
  split; [|split; [|reflexivity]].
  - intros Hnonneg.
    assert (0 <= budget / loss) as Hratio.
    { apply Qle_shift_div_l; [exact Hpos|lra]. }
    assert (0 <= q)%Z; [|lia].
    change 0%Z with (Qfloor 0). now apply Qfloor_resp_le.
  - intros Hneg.
    assert (inject_Z q * loss < 0) as H by lra.
    destruct (Z_lt_le_dec q 0) as [Hlt|Hge]; [exact Hlt|exfalso].
    assert (0 <= inject_Z q) as Hq0 by (rewrite <- (Zle_Qle 0); exact Hge).
    assert (0 <= inject_Z q * loss); [|lra].
    apply Qmult_le_0_compat; lra.
Qed.

(** A negative balance: budget -100, ask 0.50, quantity -2. *)
Lemma order_cost_within_the_risk_budget_witness :
  let number q := Some (PyNumber q) in
  let c := sample_call "XYZ" (number (40 # 100)) (number (25 # 100)) 200 (50 # 100) in
  exists o,
    define_orders default_config bullish (-10000) (sample_kwargs [c])
      sample_clock = inr [o]
    /\ quantity o = (-2)%Z
    /\ inject_Z (quantity o) * fmul (price_at_decision o) 100
       <= fmul (-10000) (risk_per_trade_pct default_config).
Proof.
  cbv zeta.
  set (c := sample_call "XYZ" (Some (PyNumber (40 # 100)))
              (Some (PyNumber (25 # 100))) 200 (50 # 100)).
  assert (Horders :
    define_orders default_config bullish (-10000) (sample_kwargs [c])
      sample_clock
    = inr [{| order_symbol := "XYZ";
              order_type := "market";
              side := "buy_to_open";
              quantity := -2;
              price_at_decision := 50 # 100;
              estimated_cost := - 100;
              tag := "AdvancedOptionsStrategy_call" |}])
    by (vm_compute; reflexivity).
  eexists. split; [exact Horders|]. split; [reflexivity|].
  exact (proj1 (proj2 (proj2 (proj2 (proj2 (proj2 (proj2
           (order_cost_within_the_risk_budget default_config bullish (-10000)
              (sample_kwargs [c]) sample_clock _ _ Horders
              (or_introl eq_refl))))))))).
Defined.

(** Rounding shows in the sizing.  At balance 700 and ask 0.07 the budget
    is 7.0 and the loss per contract 7.000000000000001: no contract fits
    and no order is returned.  At balance 6000 and ask 0.20 three contracts
    fit a budget of 60.0, and the estimated cost 0.2 x 3 x 100 is
    60.00000000000001, above the budget. *)
Example sizing_in_floating_point :
  let number q := Some (PyNumber q) in
  let c ask := sample_call "XYZ" (number (40 # 100)) (number (25 # 100)) 200 ask in
  fmul 700 (risk_per_trade_pct default_config) < fmul (7 # 100) 100
  /\ define_orders default_config bullish 700 (sample_kwargs [c (7 # 100)])
       sample_clock = inr []
  /\ fmul 6000 (risk_per_trade_pct default_config) == 60
  /\ exists o,
       define_orders default_config bullish 6000 (sample_kwargs [c (20 # 100)])
         sample_clock = inr [o]
       /\ quantity o = 3%Z
       /\ 60 < estimated_cost o.
Proof.
  cbv zeta. split; [vm_compute; reflexivity|].
  split; [vm_compute; reflexivity|]. split; [vm_compute; reflexivity|].
  eexists. split; [vm_compute; reflexivity|].
  split; [reflexivity|vm_compute; reflexivity].
Qed.

(** ** Chains on which nothing is raised *)

(** A record whose delta and implied volatility are numbers. *)
Definition numeric (c : OptionContract) : Prop :=
  (exists d, delta c = Some (PyNumber d))
  /\ (exists iv, implied_volatility c = Some (PyNumber iv)).

Lemma numeric_chain_returns self signals account_balance kw clock :
  signals <> [] ->
  Forall numeric (get_default (options_chain kw) []) ->
  exists orders,
    define_orders self signals account_balance kw clock = inr orders.
Proof.
  intros Hsignals Hnumeric.
  destruct (iloc_last_nonempty signals Hsignals) as [row Hrow].
  destruct (options_chain kw) as [[|c0 chain0]|] eqn:Hchain;
    try (exists []; unfold define_orders; rewrite Hrow, Hchain; reflexivity).
  destruct (underlying_price kw) as [price|] eqn:Hprice;
    [|exists []; unfold define_orders; rewrite Hrow, Hchain, Hprice;
      reflexivity].
  destruct (Qeq_dec (positions row) 0) as [Hflat|Hsignal].
  { exists []. rewrite (OptionsSignals.define_orders_latest _ _ _ _ _ _ Hrow).
    now apply OptionsSignals.define_orders_flat. }
  rewrite (define_orders_past_guards self signals account_balance kw clock
             row (c0 :: chain0) Hrow Hchain ltac:(discriminate)
             ltac:(rewrite Hprice; discriminate) Hsignal).
  cbn [get_default] in Hnumeric.
  set (desired := direction (positions row)).
  pose proof (survivors_delta_reads self (underlying_hv kw) desired clock
                (c0 :: chain0) 0) as Hreads.
  destruct (survivors self (underlying_hv kw) desired clock 0 (c0 :: chain0))
    as [|e es] eqn:Hsurv; [now exists []|].
  destruct (sort_head self (e :: es) ltac:(discriminate) Hreads)
    as (before & selected & after & rest & ks & Hsplit & Hsort & _).
  rewrite Hsort. cbn [bind Monad_either].
  assert (In selected (survivors self (underlying_hv kw) desired clock 0
                         (c0 :: chain0))) as Hin.
  { rewrite Hsurv, Hsplit. apply in_or_app. right. now left. }
  apply In_survivors in Hin. destruct Hin as (j & c & Hnth & Hrun & Hsel).
  apply nth_error_In in Hnth.
  rewrite Forall_forall in Hnumeric. destruct (Hnumeric c Hnth) as [Hd Hiv].
  apply run_stages_spec in Hrun.
  destruct Hrun as (_ & _ & _ & _ & _ & _ & Hask & _).
  assert (exists a, ask selected = Some a /\ 0 < a) as (a & Ha & Hpos).
  { rewrite Hsel. cbn [ask set_dte].
    destruct (ask c) as [a|]; cbn [get_default] in Hask; [eauto|lra]. }
  assert (print_selection selected = inr tt) as Hprint.
  { apply print_selection_ok. rewrite Hsel. cbn [set_dte implied_volatility
                                                 delta].
    split; assumption. }
  destruct (size_and_emit_spec self account_balance desired selected a Ha
              Hpos) as [Hzero Hnonzero].
  destruct (Z.eq_dec (Qfloor (fmul account_balance (risk_per_trade_pct self)
                              / fmul a 100)) 0) as [Hq|Hq].
  - exists []. now apply Hzero.
  - rewrite (Hnonzero Hq), Hprint. eauto.
Qed.

(** X19: on a frame with at least one row and a chain of well-formed
    records (each, as [OptionContract] has it, with a type, an expiration
    date that parses, and numbers for the open interest, volume, bid and
    ask it carries) whose delta and implied volatility are numbers,
    [define_orders] raises nothing: it returns a list of orders. *)
Theorem numeric_chain_never_raises self signals account_balance kw clock :
  signals <> [] ->
  Forall numeric (get_default (options_chain kw) []) ->
  exists orders,
    define_orders self signals account_balance kw clock = inr orders.
Proof. apply numeric_chain_returns. Qed.

Lemma numeric_chain_never_raises_witness :
  let number q := Some (PyNumber q) in
  let c := sample_call "XYZ" (number (40 # 100)) (number (25 # 100)) 200 (50 # 100) in
  exists orders,
    define_orders default_config bullish 10000 (sample_kwargs [c]) sample_clock
    = inr orders.
Proof.
  cbv zeta. apply numeric_chain_never_raises; [discriminate|].
  constructor; [|constructor].
  split; [exists (40 # 100)|exists (25 # 100)]; reflexivity.
Defined.

End OptionsOrders.

(** * The options chain of the Polygon client *)

Module PolygonDataClient.

(** An attribute of an object of the client library: absent
    ([hasattr] is false), None, or a value. *)
Inductive attr (A : Type) : Type :=
| NoAttr
| AttrNone
| Attr (a : A).
Arguments NoAttr {A}.
Arguments AttrNone {A}.
Arguments Attr {A} a.

Definition hasattr {A : Type} (x : attr A) : bool :=
  match x with NoAttr => false | _ => true end.

(** [x if hasattr(o, 'x') and o.x is not None else default] *)
Definition value_or {A : Type} (x : attr A) (default : A) : A :=
  match x with Attr a => a | _ => default end.

(** [o.x], read once [hasattr] is known to hold. *)
Definition raw {A : Type} (x : attr A) : option A :=
  match x with Attr a => Some a | _ => None end.

(** The snapshot of one option contract.  An expiration date is the
    datetime its text denotes, as in the contract records of the
    strategy. *)
Module Snap.
Record details : Type := {
  strike_price : attr Q;
  expiration_date : attr Z;
  contract_type : attr string;
  open_interest : attr Q
}.
Record greeks : Type := { delta : attr Q }.
Record last_quote : Type := { bid : attr Q; ask : attr Q }.
Record day : Type := { volume : attr Q }.
Record t : Type := {
  the_details : option details;
  the_greeks : option greeks;
  the_last_quote : option last_quote;
  the_day : option day;
  implied_volatility : attr Q
}.
End Snap.

(** The dict appended to [chain_data]. *)
Module Out.
Record t : Type := {
  symbol : string;
  strike_price : option Q;
  expiration_date : option Z;
  type : option string;
  delta : Q;
  implied_volatility : Q;
  bid : Q;
  ask : Q;
  volume : Q;
  open_interest : Q
}.
End Out.

(** The body of the [try] block for one listed contract, given what
    [get_snapshot_option] returned: the dict to append, if any. *)
Definition contract_data (ticker : string) (snapshot : option Snap.t)
    : option Out.t :=
  match snapshot with
  | None => None
  | Some snapshot =>
    match Snap.the_details snapshot, Snap.the_greeks snapshot,
          Snap.the_last_quote snapshot with
    | Some details, Some greeks, Some last_quote =>
      let day_volume :=
        match Snap.the_day snapshot with
        | Some day => Snap.volume day
        | None => NoAttr
        end in
      if negb (forallb (fun present : bool => present)
                 [hasattr (Snap.strike_price details);
                  hasattr (Snap.expiration_date details);
                  hasattr (Snap.contract_type details);
                  hasattr (Snap.delta greeks);
                  hasattr (Snap.implied_volatility snapshot);
                  hasattr (Snap.bid last_quote);
                  hasattr (Snap.ask last_quote);
                  hasattr day_volume;
                  hasattr (Snap.open_interest details)])
      then None
      else
        let iv := value_or (Snap.implied_volatility snapshot) 0 in
        let delta := value_or (Snap.delta greeks) 0 in
        let bid := value_or (Snap.bid last_quote) 0 in
        let ask := value_or (Snap.ask last_quote) 0 in
        let volume := value_or day_volume 0 in
        let open_interest := value_or (Snap.open_interest details) 0 in
        if Qle_bool ask 0 then None
        else Some {|
          Out.symbol := ticker;
          Out.strike_price := raw (Snap.strike_price details);
          Out.expiration_date := raw (Snap.expiration_date details);
          Out.type := raw (Snap.contract_type details);
          Out.delta := delta;
          Out.implied_volatility := iv;
          Out.bid := bid;
          Out.ask := ask;
          Out.volume := volume;
          Out.open_interest := open_interest
        |}
    | _, _, _ => None
    end
  end.

(** One contract of the listing: its ticker (None when the attribute is
    absent or None) and the outcome of [get_snapshot_option] for it. *)
Record item : Type := {
  ticker : option string;
  fetched : py (option Snap.t)
}.

(** What the iterator of [list_options_contracts] does: it ends, yields a
    contract, or raises. *)
Inductive listing : Type :=
| Done
| Raised
| Yield (contract_item : item) (rest : listing).

Fixpoint collect (limit processed_contracts : Z) (chain_data : list Out.t)
    (contracts : listing) : list Out.t :=
  match contracts with
  | Done => chain_data
  | Raised => []
  | Yield contract_item rest =>
    if (limit <=? processed_contracts)%Z then chain_data
    else
      match ticker contract_item with
      | None => collect limit processed_contracts chain_data rest
      | Some ""%string => collect limit processed_contracts chain_data rest
      | Some name =>
        match fetched contract_item with
        | inl _ => collect limit processed_contracts chain_data rest
        | inr snapshot =>
          match contract_data name snapshot with
          | Some data =>
            collect limit (processed_contracts + 1) (chain_data ++ [data]) rest
          | None => collect limit processed_contracts chain_data rest
          end
        end
      end
  end.

Definition get_options_chain_snapshot (limit : Z) (contracts : listing)
    : list Out.t :=
  collect limit 0 [] contracts.

(** ** What the chain holds *)

Lemma contract_data_priced ticker snapshot data :
  contract_data ticker snapshot = Some data ->
  0 < Out.ask data /\ Out.symbol data = ticker.
Proof.
  unfold contract_data.
  destruct snapshot as [snapshot|]; [|discriminate].
  destruct (Snap.the_details snapshot) as [details|]; [|discriminate].
  destruct (Snap.the_greeks snapshot) as [greeks|]; [|discriminate].
  destruct (Snap.the_last_quote snapshot) as [quote|]; [|discriminate].
  cbv zeta. destruct (negb _); [discriminate|].
  destruct (Qle_bool _ 0) eqn:Hask; [discriminate|].
  intros [= <-]. cbn [Out.ask Out.symbol]. split; [|reflexivity].
  now apply Qle_bool_false_iff.
Qed.

Lemma collect_spec contracts :
  forall limit processed chain_data,
    let chain := collect limit processed chain_data contracts in
    (forall data, In data chain -> In data chain_data \/ 0 < Out.ask data)
    /\ (Z.of_nat (List.length chain)
        <= Z.max (Z.of_nat (List.length chain_data))
                 (Z.of_nat (List.length chain_data) + (limit - processed)))%Z.
Proof.
  induction contracts as [| |contract_item rest IH];
    intros limit processed chain_data; cbv zeta; cbn [collect].
  - split; [auto|lia].
  - split; [intros data []|cbn; lia].
  - destruct (Z.leb_spec limit processed) as [Hfull|Hroom];
      [split; [auto|lia]|].
    pose proof (IH limit processed chain_data) as Hskip. cbv zeta in Hskip.
    assert (Hskip' :
      (forall data,
          In data (collect limit processed chain_data rest) ->
          In data chain_data \/ 0 < Out.ask data)
      /\ (Z.of_nat (List.length (collect limit processed chain_data rest))
          <= Z.max (Z.of_nat (List.length chain_data))
                   (Z.of_nat (List.length chain_data) + (limit - processed)))%Z)
      by exact Hskip.
    destruct (ticker contract_item) as [[|ch name]|]; try exact Hskip'.
    destruct (fetched contract_item) as [e|snapshot]; [exact Hskip'|].
    destruct (contract_data (String ch name) snapshot) as [data|] eqn:Hdata;
      [|exact Hskip'].
    destruct (IH limit (processed + 1)%Z (chain_data ++ [data]))
      as [Hin Hlen].
    apply contract_data_priced in Hdata. destruct Hdata as [Hask _].
    split.
    + intros d Hd. destruct (Hin d Hd) as [Hold | Hnew]; [|now right].
      apply in_app_or in Hold. destruct Hold as [Hold | [<- | []]]; auto.
    + rewrite length_app in Hlen. cbn [List.length] in Hlen. lia.
Qed.

(** X20: the chain returned by [get_options_chain_snapshot] holds at most
    [limit] records (none when the limit is not positive), and every
    record has an ask above 0. *)
Theorem chain_is_bounded_and_priced limit contracts :
  let chain := get_options_chain_snapshot limit contracts in
  (Z.of_nat (List.length chain) <= Z.max 0 limit)%Z
  /\ forall data, In data chain -> 0 < Out.ask data.
Proof.
  cbv zeta. unfold get_options_chain_snapshot.
  destruct (collect_spec contracts limit 0 []) as [Hin Hlen].
  split.
  - cbn [List.length] in Hlen. lia.
  - intros data Hdata. destruct (Hin data Hdata) as [[] | H]. exact H.
Qed.

(** ** The chain as the strategy reads it *)

(** The record of the strategy a dict of the chain is read as, when its
    type and expiration date are not None. *)
Definition as_contract (data : Out.t)
    : option AdvancedOptionsStrategy.OptionContract :=
  match Out.type data, Out.expiration_date data with
  | Some type, Some expiration_date =>
    Some {|
      AdvancedOptionsStrategy.symbol := Out.symbol data;
      AdvancedOptionsStrategy.type := type;
      AdvancedOptionsStrategy.expiration_date := expiration_date;
      AdvancedOptionsStrategy.delta := Some (PyNumber (Out.delta data));
      AdvancedOptionsStrategy.implied_volatility :=
        Some (PyNumber (Out.implied_volatility data));
      AdvancedOptionsStrategy.iv_percentile := None;
      AdvancedOptionsStrategy.open_interest := Some (Out.open_interest data);
      AdvancedOptionsStrategy.volume := Some (Out.volume data);
      AdvancedOptionsStrategy.bid := Some (Out.bid data);
      AdvancedOptionsStrategy.ask := Some (Out.ask data);
      AdvancedOptionsStrategy.dte := None
    |}
  | _, _ => None
  end.

Lemma as_contract_numeric data c :
  as_contract data = Some c -> OptionsOrders.numeric c.
Proof.
  unfold as_contract.
  destruct (Out.type data), (Out.expiration_date data); try discriminate.
  intros [= <-]. split; eexists; reflexivity.
Qed.

(** X21: a snapshot whose implied volatility is None reaches the strategy
    as an implied volatility of 0.0, not as a missing one: the lenient
    pass of the IV filter on missing values does not apply, and in
    fixed_range mode with a positive lower bound the contract is
    rejected. *)
Theorem missing_iv_arrives_as_zero self hv ticker snapshot data c :
  contract_data ticker (Some snapshot) = Some data ->
  Snap.implied_volatility snapshot = AttrNone ->
  as_contract data = Some c ->
  AdvancedOptionsStrategy.implied_volatility c = Some (PyNumber 0)
  /\ (AdvancedOptionsStrategy.iv_filter_mode self = "fixed_range"%string ->
      0 < AdvancedOptionsStrategy.target_iv_min self ->
      AdvancedOptionsStrategy._passes_iv_filter self c hv = inr false).
Proof.
  intros Hdata Hiv Hc.
  assert (Out.implied_volatility data = 0) as Hzero.
  { unfold contract_data in Hdata.
    destruct (Snap.the_details snapshot) as [details|]; [|discriminate].
    destruct (Snap.the_greeks snapshot) as [greeks|]; [|discriminate].
    destruct (Snap.the_last_quote snapshot) as [quote|]; [|discriminate].
    cbv zeta in Hdata. destruct (negb _); [discriminate|].
    destruct (Qle_bool _ 0); [discriminate|].
    injection Hdata as <-. cbn [Out.implied_volatility]. now rewrite Hiv. }
  unfold as_contract in Hc.
  destruct (Out.type data), (Out.expiration_date data); try discriminate.
  injection Hc as <-. cbn [AdvancedOptionsStrategy.implied_volatility].
  rewrite Hzero. split; [reflexivity|].
  intros Hmode Hmin.
  match goal with
  | |- AdvancedOptionsStrategy._passes_iv_filter _ ?c _ = _ =>
    rewrite (AdvancedOptionsStrategy.iv_filter_numeric self c hv 0 eq_refl)
  end.
  rewrite Hmode. cbn. unfold between.
  apply Qle_bool_false_iff in Hmin. now rewrite Hmin.
Qed.

Definition sample_snapshot (iv : attr Q) : Snap.t := {|
  Snap.the_details := Some {|
    Snap.strike_price := Attr 105;
    Snap.expiration_date :=
      Attr (35 * AdvancedOptionsStrategy.microseconds_per_day)%Z;
    Snap.contract_type := Attr "call"%string;
    Snap.open_interest := Attr 200 |};
  Snap.the_greeks := Some {| Snap.delta := Attr (40 # 100) |};
  Snap.the_last_quote :=
    Some {| Snap.bid := Attr (48 # 100); Snap.ask := Attr (50 # 100) |};
  Snap.the_day := Some {| Snap.volume := Attr 100 |};
  Snap.implied_volatility := iv
|}.

Lemma missing_iv_arrives_as_zero_witness :
  exists data c,
    contract_data "O:XYZ" (Some (sample_snapshot AttrNone)) = Some data
    /\ as_contract data = Some c
    /\ AdvancedOptionsStrategy._passes_iv_filter
         AdvancedOptionsStrategy.default_config c None = inr false.
Proof.
  destruct (contract_data "O:XYZ" (Some (sample_snapshot AttrNone)))
    as [data|] eqn:Hdata; [|discriminate Hdata].
  destruct (as_contract data) as [c|] eqn:Hc;
    [|vm_compute in Hdata; injection Hdata as <-; discriminate Hc].
  exists data, c. split; [reflexivity|]. split; [exact Hc|].
  refine (proj2 (missing_iv_arrives_as_zero
                   AdvancedOptionsStrategy.default_config None "O:XYZ"
                   (sample_snapshot AttrNone) data c Hdata eq_refl Hc)
            eq_refl _).
  reflexivity.
Defined.

(** X22: on a frame with at least one row, [define_orders] raises nothing
    on the chain the Polygon client returned, provided every record of it
    has a type and an expiration date: the final print always finds a
    numeric delta and implied volatility. *)
Theorem feed_chain_never_raises self signals account_balance limit contracts
    chain price hv clock :
  signals <> [] ->
  map as_contract (get_options_chain_snapshot limit contracts)
  = map Some chain ->
  exists orders,
    AdvancedOptionsStrategy.define_orders self signals account_balance
      {| AdvancedOptionsStrategy.options_chain := Some chain;
         AdvancedOptionsStrategy.underlying_price := price;
         AdvancedOptionsStrategy.underlying_hv := hv |} clock
    = inr orders.
Proof.
  intros Hsignals Hchain.
  apply OptionsOrders.numeric_chain_returns; [exact Hsignals|].
  cbn [AdvancedOptionsStrategy.options_chain get_default].
  apply Forall_forall. intros c Hc.
  assert (In (Some c) (map as_contract
                         (get_options_chain_snapshot limit contracts)))
    as Hin by (rewrite Hchain; now apply in_map).
  apply in_map_iff in Hin. destruct Hin as (data & Hdata & _).
  now apply (as_contract_numeric data).
Qed.

Lemma feed_chain_never_raises_witness :
  exists chain orders,
    map as_contract
      (get_options_chain_snapshot 200
         (Yield {| ticker := Some "O:XYZ"%string;
                   fetched := inr (Some (sample_snapshot (Attr (25 # 100)))) |}
            Done))
    = map Some chain
    /\ AdvancedOptionsStrategy.define_orders
         AdvancedOptionsStrategy.default_config
         AdvancedOptionsStrategy.bullish 10000
         {| AdvancedOptionsStrategy.options_chain := Some chain;
            AdvancedOptionsStrategy.underlying_price := Some 100;
            AdvancedOptionsStrategy.underlying_hv := None |}
         AdvancedOptionsStrategy.sample_clock
       = inr orders.
Proof.
  eexists.
  assert (Hchain :
    map as_contract
      (get_options_chain_snapshot 200
         (Yield {| ticker := Some "O:XYZ"%string;
                   fetched := inr (Some (sample_snapshot (Attr (25 # 100)))) |}
            Done))
    = map Some
        [{| AdvancedOptionsStrategy.symbol := "O:XYZ";
            AdvancedOptionsStrategy.type := "call";
            AdvancedOptionsStrategy.expiration_date :=
              (35 * AdvancedOptionsStrategy.microseconds_per_day)%Z;
            AdvancedOptionsStrategy.delta := Some (PyNumber (40 # 100));
            AdvancedOptionsStrategy.implied_volatility :=
              Some (PyNumber (25 # 100));
            AdvancedOptionsStrategy.iv_percentile := None;
            AdvancedOptionsStrategy.open_interest := Some 200;
            AdvancedOptionsStrategy.volume := Some 100;
            AdvancedOptionsStrategy.bid := Some (48 # 100);
            AdvancedOptionsStrategy.ask := Some (50 # 100);
            AdvancedOptionsStrategy.dte := None |}]) by reflexivity.
  destruct (feed_chain_never_raises AdvancedOptionsStrategy.default_config
              AdvancedOptionsStrategy.bullish 10000 200 _ _ (Some 100) None
              AdvancedOptionsStrategy.sample_clock ltac:(discriminate) Hchain)
    as [orders Horders].
  exists orders. split; [exact Hchain|exact Horders].
Defined.

End PolygonDataClient.

(** * One pass of the Forex trading loop *)

Module ForexTradingCycle.
Import MovingAverageCrossoverStrategy.

Definition FOREX_DEFAULT_SL_PERCENT : Q := 5 # 1000.
Definition FOREX_DEFAULT_TP_PERCENT : Q := 1 # 100.

(** The entries of the tick dict the loop reads, under the keys
    TickTypeEnum.LAST, BID and ASK; None when the key is absent. *)
Record ticks : Type := {
  LAST : option Q;
  BID : option Q;
  ASK : option Q
}.

(** The LAST price when it is positive, otherwise the midpoint of a
    positive BID and ASK. *)
Definition current_price_for_signal (current_ticks : ticks) : option Q :=
  let last_price := LAST current_ticks in
  let bid_price := BID current_ticks in
  let ask_price := ASK current_ticks in
  match last_price with
  | Some last_price =>
    if Qlt_bool 0 last_price then Some last_price
    else
      match bid_price, ask_price with
      | Some bid_price, Some ask_price =>
        if Qlt_bool 0 bid_price && Qlt_bool 0 ask_price
        then Some ((bid_price + ask_price) / 2)
        else None
      | _, _ => None
      end
  | None =>
    match bid_price, ask_price with
    | Some bid_price, Some ask_price =>
      if Qlt_bool 0 bid_price && Qlt_bool 0 ask_price
      then Some ((bid_price + ask_price) / 2)
      else None
    | _, _ => None
    end
  end.

(** [f"{x:.5f}"]: None does not know the format code. *)
Definition format_5f (x : option Q) : py unit :=
  match x with
  | None => raise TypeError
  | Some _ => ret tt
  end.

(** The keyword arguments of [db_logger.log_signal] that come from the
    signal. *)
Module Logged.
Record t : Type := {
  signal_type : signal;
  entry_price : Q;
  stop_loss_price : Q;
  take_profit_price : Q;
  short_ma : ma;
  long_ma : ma
}.
End Logged.

Section Loop.

Context {lib : Libraries}.

(** The body of the [while True] loop from the tick dict it polled up to
    the stop loss and take profit of a signal: the strategy afterwards and
    what is logged, if anything.  A raised exception leaves the loop.  No
    signal other than BUY and SELL is different from HOLD, so the branch
    that sets both levels to 0.0 is never taken. *)
Definition iteration (forex_strategy : strategy) (current_ticks : ticks)
    : py (strategy * option Logged.t) :=
  match current_price_for_signal current_ticks with
  | None => ret (forex_strategy, None)
  | Some current_price =>
    if Qeq_bool current_price 0 then ret (forex_strategy, None)
    else
      _ <- format_5f (BID current_ticks) ;;
      _ <- format_5f (ASK current_ticks) ;;
      let after := on_new_tick forex_strategy current_price in
      let forex_strategy := fst after in
      signal <- snd after ;;
      let entry_price := current_price in
      match signal with
      | HOLD => ret (forex_strategy, None)
      | BUY =>
        ret (forex_strategy, Some {|
          Logged.signal_type := signal;
          Logged.entry_price := entry_price;
          Logged.stop_loss_price :=
            entry_price * (1 - FOREX_DEFAULT_SL_PERCENT);
          Logged.take_profit_price :=
            entry_price * (1 + FOREX_DEFAULT_TP_PERCENT);
          Logged.short_ma := short_ma forex_strategy;
          Logged.long_ma := long_ma forex_strategy |})
      | SELL =>
        ret (forex_strategy, Some {|
          Logged.signal_type := signal;
          Logged.entry_price := entry_price;
          Logged.stop_loss_price :=
            entry_price * (1 + FOREX_DEFAULT_SL_PERCENT);
          Logged.take_profit_price :=
            entry_price * (1 - FOREX_DEFAULT_TP_PERCENT);
          Logged.short_ma := short_ma forex_strategy;
          Logged.long_ma := long_ma forex_strategy |})
      end
  end.

Lemma current_price_positive current_ticks current_price :
  current_price_for_signal current_ticks = Some current_price ->
  0 < current_price.
Proof.
  unfold current_price_for_signal. cbv zeta.
  assert (Hmid : forall bid ask,
    (if Qlt_bool 0 bid && Qlt_bool 0 ask
     then Some ((bid + ask) / 2) else None) = Some current_price ->
    0 < current_price).
  { intros bid ask.
    destruct (Qlt_bool 0 bid) eqn:Hbid; [|discriminate].
    destruct (Qlt_bool 0 ask) eqn:Hask; [|discriminate].
    cbn [andb]. intros [= <-].
    apply Qlt_bool_iff in Hbid, Hask.
    apply Qlt_shift_div_l; lra. }
  destruct (LAST current_ticks) as [last_price|].
  - destruct (Qlt_bool 0 last_price) eqn:Hlast.
    + intros [= <-]. now apply Qlt_bool_iff.
    + destruct (BID current_ticks), (ASK current_ticks); try discriminate.
      apply Hmid.
  - destruct (BID current_ticks), (ASK current_ticks); try discriminate.
    apply Hmid.
Qed.

(** What a crossing tick leaves in the two means. *)
Lemma on_new_tick_crossed self current_price :
  let after := fst (on_new_tick self current_price) in
  let returned := snd (on_new_tick self current_price) in
  (returned = inr BUY ->
   exists s l, short_ma after = MaValue s /\ long_ma after = MaValue l
               /\ l < s)
  /\ (returned = inr SELL ->
      exists s l, short_ma after = MaValue s /\ long_ma after = MaValue l
                  /\ s < l).
Proof.
  cbv zeta. CrossoverProperties.tick_cases; split; intros; try discriminate;
    repeat match goal with
           | H : _ && _ = true |- _ => apply andb_true_iff in H; destruct H
           | H : ma_lt _ _ = true |- _ =>
             cbn in H; apply Qlt_bool_iff in H
           end;
    eauto.
Qed.

(** X23: a tick dict with a positive LAST price but no BID, or no ASK,
    ends the loop with a TypeError raised by the print, before the
    strategy sees the price. *)
Theorem last_price_without_quotes_raises forex_strategy current_ticks
    last_price :
  LAST current_ticks = Some last_price -> 0 < last_price ->
  BID current_ticks = None \/ ASK current_ticks = None ->
  iteration forex_strategy current_ticks = inl TypeError.
Proof.
  intros Hlast Hpos Hquotes. unfold iteration, current_price_for_signal.
  cbv zeta. rewrite Hlast.
  pose proof (proj2 (Qlt_bool_iff 0 last_price) Hpos) as Hlt. rewrite Hlt.
  destruct (Qeq_bool last_price 0) eqn:Hzero.
  { apply Qeq_bool_iff in Hzero. lra. }
  destruct Hquotes as [-> | Hask]; [reflexivity|].
  rewrite Hask. now destruct (BID current_ticks).
Qed.


End Loop.

(** ** The loop on the sample strategy *)

#[local] Existing Instance reference.

Lemma last_price_without_quotes_raises_witness :
  iteration sample_strategy {| LAST := Some 10; BID := None; ASK := Some 11 |}
  = inl TypeError.
Proof.
  apply (last_price_without_quotes_raises sample_strategy
           {| LAST := Some 10; BID := None; ASK := Some 11 |} 10).
  - reflexivity.
  - reflexivity.
  - left. reflexivity.
Defined.


End ForexTradingCycle.

(** * The alert log of the alert API *)

Module AlertApi.

(** The request body: [timestamp] is None unless the sender set it. *)
Record AlertMessage : Type := {
  message : string;
  level : string;
  timestamp : option Z
}.

(** A dict of [alert_log]. *)
Module Entry.
Record t : Type := {
  timestamp : Z;
  level : string;
  message : string
}.
End Entry.

(** [l[start:]] *)
Definition slice_from {A : Type} (start : Z) (l : list A) : list A :=
  let len := Z.of_nat (List.length l) in
  let start :=
    if (start <? 0)%Z then Z.max (len + start) 0 else Z.min start len in
  skipn (Z.to_nat start) l.

Definition get_alerts (alert_log : list Entry.t) (limit : Z) : list Entry.t :=
  slice_from (- limit) alert_log.

Lemma slice_from_suffix {A : Type} (start : Z) (l : list A) :
  exists older, l = older ++ slice_from start l.
Proof.
  unfold slice_from. cbv zeta.
  eexists. symmetry. apply firstn_skipn.
Qed.

Lemma slice_from_length {A : Type} (start : Z) (l : list A) :
  let len := Z.of_nat (List.length l) in
  Z.of_nat (List.length (slice_from start l))
  = if (start <? 0)%Z then Z.min (- start) len
    else Z.max 0 (len - start).
Proof.
  unfold slice_from. cbv zeta. rewrite length_skipn.
  destruct (Z.ltb_spec start 0); lia.
Qed.

(** X25: [get_alerts] always returns an end of the log, in order of
    receipt.  A limit of at least 1 is the maximum number returned; a
    limit of 0 returns the whole log, and a negative limit all but the
    first [-limit] alerts. *)
Theorem limit_is_a_maximum_only_when_positive alert_log limit :
  let alerts := get_alerts alert_log limit in
  let len := Z.of_nat (List.length alert_log) in
  (exists older, alert_log = older ++ alerts)
  /\ ((1 <= limit)%Z ->
      Z.of_nat (List.length alerts) = Z.min limit len)
  /\ ((limit <= 0)%Z ->
      Z.of_nat (List.length alerts) = Z.max 0 (len + limit))
  /\ get_alerts alert_log 0 = alert_log.
Proof.
  cbv zeta. unfold get_alerts.
  split; [apply slice_from_suffix|].
  pose proof (slice_from_length (- limit) alert_log) as Hlen.
  cbv zeta in Hlen. rewrite Hlen.
  split; [|split].
  - intros Hlimit. destruct (Z.ltb_spec (- limit) 0); lia.
  - intros Hlimit. destruct (Z.ltb_spec (- limit) 0); lia.
  - unfold slice_from. cbv zeta. change (- 0 <? 0)%Z with false. cbv iota.
    replace (Z.to_nat (Z.min (- 0) (Z.of_nat (List.length alert_log))))
      with 0%nat by lia.
    reflexivity.
Qed.

(** ** Receiving an alert *)

Section Receive.

(** [level.upper()]: the case mapping of [str], which follows Unicode. *)
Variable upper : string -> string.

(** [alert_log] after [receive_alert], [now] being what [datetime.now()]
    returns.  The response, a text rendering of the same entry, is not
    part of the model. *)
Definition receive_alert (now : Z) (alert_log : list Entry.t)
    (alert : AlertMessage) : list Entry.t :=
  let timestamp :=
    match timestamp alert with
    | None => now
    | Some timestamp => timestamp
    end in
  alert_log ++ [{| Entry.timestamp := timestamp;
                   Entry.level := upper (level alert);
                   Entry.message := message alert |}].

(** X26: the log is never trimmed, and an alert just received is the last
    one [get_alerts] returns for any limit of at least 1: it carries the
    sender's timestamp, or the time of receipt when there is none, and the
    level that [str.upper] returns for the sender's.  Before it come the
    latest limit - 1 alerts of the earlier log. *)
Theorem received_alert_is_returned_last now alert_log alert limit :
  (1 <= limit)%Z ->
  exists earlier,
    get_alerts (receive_alert now alert_log alert) limit
    = earlier ++ [{| Entry.timestamp :=
                       match timestamp alert with
                       | None => now
                       | Some timestamp => timestamp
                       end;
                     Entry.level := upper (level alert);
                     Entry.message := message alert |}]
    /\ Z.of_nat (List.length earlier)
       = Z.min (limit - 1) (Z.of_nat (List.length alert_log))
    /\ (exists older, alert_log = older ++ earlier)
    /\ List.length (receive_alert now alert_log alert)
       = S (List.length alert_log).
Proof.
  intros Hlimit.
  exists (skipn (Z.to_nat (Z.of_nat (List.length alert_log) - (limit - 1)))
            alert_log).
  split; [|split; [|split]].
  - unfold get_alerts, receive_alert, slice_from. cbv zeta.
    rewrite length_app. cbn [List.length].
    destruct (Z.ltb_spec (- limit) 0) as [_|]; [|lia].
    rewrite skipn_app.
    replace (Z.to_nat (Z.max (Z.of_nat (List.length alert_log + 1) + - limit) 0)
             - List.length alert_log)%nat with 0%nat by lia.
    cbn [skipn].
    match goal with
    | |- skipn ?a _ ++ _ = skipn ?b _ ++ _ =>
      replace b with a; [reflexivity|]
    end.
    lia.
  - rewrite length_skipn. lia.
  - eexists. symmetry. apply firstn_skipn.
  - unfold receive_alert. rewrite length_app. cbn. lia.
Qed.

End Receive.

(** The case mapping on the letters a to z, which is what [str.upper]
    does on a level written in ASCII. *)
Definition ascii_upper_char (c : Ascii.ascii) : Ascii.ascii :=
  let n := Ascii.nat_of_ascii c in
  if ((97 <=? n) && (n <=? 122))%nat then Ascii.ascii_of_nat (n - 32)
  else c.

Fixpoint ascii_upper (s : string) : string :=
  match s with
  | EmptyString => EmptyString
  | String c s => String (ascii_upper_char c) (ascii_upper s)
  end.

Lemma received_alert_is_returned_last_witness :
  let alert := {| message := "Order filled"; level := "warning";
                  timestamp := None |} in
  exists earlier,
    get_alerts (receive_alert ascii_upper 1700 [] alert) 20
    = earlier ++ [{| Entry.timestamp := 1700; Entry.level := "WARNING";
                     Entry.message := "Order filled" |}].
Proof.
  cbv zeta.
  destruct (received_alert_is_returned_last ascii_upper 1700 []
              {| message := "Order filled"; level := "warning";
                 timestamp := None |} 20 ltac:(lia))
    as (earlier & Hlast & _).
  exists earlier. exact Hlast.
Defined.

End AlertApi.
